(** * AnonymousFoodSafety: report ledger, investigation tracker and statistics

    A shallow embedding of the [AnonymousFoodSafety] contract: the access
    control registry (owner, regulator, authorized investigators), the report
    ledger with its status machine, the investigation tracker and the
    incremental statistics (total, per location, per reporter).

    The Solidity source of the contract is not among the repository's files
    (its tests, deployment scripts and documentation are), so every operation below
    is modelled from the specification of the contract, one public function
    per definition, with the specification's error taxonomy
    (AuthorizationError, ValidationError, StateError).  Role checks are
    evaluated at the top of each operation, as the specification prescribes
    (modifier style [onlyOwner] / [onlyRegulator] / [onlyInvestigator]).
    A failed call reverts: the state before the call is kept whole.

    The repository's scripts are embedded from their sources on top of this
    model: the simulation script ([scripts/simulate.js]) and the interaction
    script, which drive the contract; the dependency checker
    ([scripts/security/check-dependencies.js]); and the contract security
    checker, whose regular-expression matching is a parameter. *)

From Stdlib Require Import List Arith Lia Bool ZArith NArith String Ascii.
Import ListNotations.

Open Scope nat_scope.

(** ** Data model *)

(** Addresses are opaque caller handles. *)
Definition address := nat.

(** Modelled from the spec: the [ReportStatus] enum of the contract
    (Submitted = 0, UnderReview = 1, Investigating = 2, Resolved = 3,
    Closed = 4, as the tests read it back). *)
Inductive ReportStatus :=
| Submitted
| UnderReview
| Investigating
| Resolved
| Closed.

Definition ReportStatus_eq_dec (a b : ReportStatus) : {a = b} + {a <> b}.
Proof. decide equality. Defined.

Definition status_eqb (a b : ReportStatus) : bool :=
  if ReportStatus_eq_dec a b then true else false.

(** Modelled from the spec: the [Report] struct of the contract. *)
Record Report := mkReport {
  reportId : nat;
  submitter : address;
  safetyLevel : nat;
  locationCode : Z;
  foodTypeCode : Z;
  description : string;
  status : ReportStatus;
  createdAt : nat;
  lastUpdated : nat;
  isProcessed : bool;
  isValid : bool
}.

(** Modelled from the spec: the [Investigation] struct of the contract. *)
Record Investigation := mkInvestigation {
  invReportId : nat;
  investigator : address;
  startTime : nat;
  endTime : nat;
  isComplete : bool;
  finalSafetyLevel : nat;
  findings : string
}.

(** Modelled from the spec: the per-location statistics. *)
Record LocationStats := mkLocationStats {
  locTotalReports : nat;
  resolvedReports : nat;
  safetyLevelSum : nat;
  lastReportTime : nat
}.

Definition emptyLocationStats : LocationStats := mkLocationStats 0 0 0 0.

(** Modelled from the spec: the status-bucket counters returned by
    [getTotalStats]. *)
Record TotalStats := mkTotalStats {
  total : nat;
  submitted : nat;
  underReview : nat;
  investigating : nat;
  resolved : nat;
  closed : nat
}.

Definition emptyTotalStats : TotalStats := mkTotalStats 0 0 0 0 0 0.

(** Modelled from the spec: the events (notifications) of the contract. *)
Inductive Event :=
| ReportSubmitted (id : nat) (reporter : address) (timestamp : nat)
| ReportStatusChanged (id : nat) (newStatus : ReportStatus)
| InvestigationStarted (id : nat) (who : address)
| InvestigationCompleted (id : nat) (level : nat)
| InvestigatorAuthorized (who : address)
| InvestigatorRevoked (who : address)
| EmergencyCloseAudit (id : nat) (reason : string).

(** Modelled from the spec: the contract storage, one store value.  Solidity
    mappings are total functions with their zero default; the reports are
    kept as an append-only arena, report [id] at position [id - 1]. *)
Record State := mkState {
  owner : address;
  regulator : address;
  authorizedInvestigators : address -> bool;
  totalReports : nat;
  reports : list Report;
  investigations : nat -> option Investigation;
  totalStats : TotalStats;
  locationStats : Z -> LocationStats;
  reporterStats : address -> nat;
  events : list Event
}.

(** The transaction context: [msg.sender] and [block.timestamp]. *)
Record Ctx := mkCtx {
  msgSender : address;
  blockTimestamp : nat
}.

(** The error taxonomy of the specification. *)
Inductive Error :=
| AuthorizationError
| ValidationError
| StateError.

(** ** A small error monad *)

Inductive Result (A : Type) :=
| Ok (a : A)
| Err (e : Error).
Arguments Ok {A} a.
Arguments Err {A} e.

Definition bind {A B : Type} (m : Result A) (k : A -> Result B) : Result B :=
  match m with
  | Ok a => k a
  | Err e => Err e
  end.

Notation "x <- m ;; k" := (bind m (fun x => k))
  (at level 100, m at next level, k at level 200, right associativity).
Notation "m ;;; k" := (bind m (fun _ => k))
  (at level 100, k at level 200, right associativity).

(** [require(cond, error)]: revert with [e] unless [b] holds. *)
Definition require (b : bool) (e : Error) : Result unit :=
  if b then Ok tt else Err e.

(** ** Store helpers *)

(** Overwrite position [n] of a list; out of range the list is unchanged. *)
Fixpoint replace_nth {A : Type} (n : nat) (x : A) (l : list A) : list A :=
  match l, n with
  | [], _ => []
  | _ :: t, 0 => x :: t
  | h :: t, S k => h :: replace_nth k x t
  end.

Definition with_regulator (st : State) (a : address) : State :=
  mkState (owner st) a (authorizedInvestigators st) (totalReports st)
    (reports st) (investigations st) (totalStats st) (locationStats st)
    (reporterStats st) (events st).

Definition with_investigators (st : State) (f : address -> bool) : State :=
  mkState (owner st) (regulator st) f (totalReports st)
    (reports st) (investigations st) (totalStats st) (locationStats st)
    (reporterStats st) (events st).

Definition with_reports (st : State) (rs : list Report) (ts : TotalStats) : State :=
  mkState (owner st) (regulator st) (authorizedInvestigators st)
    (totalReports st) rs (investigations st) ts (locationStats st)
    (reporterStats st) (events st).

Definition with_investigations (st : State) (f : nat -> option Investigation) : State :=
  mkState (owner st) (regulator st) (authorizedInvestigators st)
    (totalReports st) (reports st) f (totalStats st) (locationStats st)
    (reporterStats st) (events st).

Definition with_locationStats (st : State) (f : Z -> LocationStats) : State :=
  mkState (owner st) (regulator st) (authorizedInvestigators st)
    (totalReports st) (reports st) (investigations st) (totalStats st) f
    (reporterStats st) (events st).

Definition emit (st : State) (es : list Event) : State :=
  mkState (owner st) (regulator st) (authorizedInvestigators st)
    (totalReports st) (reports st) (investigations st) (totalStats st)
    (locationStats st) (reporterStats st) (events st ++ es).

(** Point update of a mapping. *)
Definition upd_addr {V : Type} (f : address -> V) (k : address) (v : V) : address -> V :=
  fun k' => if Nat.eqb k' k then v else f k'.
Definition upd_nat {V : Type} (f : nat -> V) (k : nat) (v : V) : nat -> V :=
  fun k' => if Nat.eqb k' k then v else f k'.
Definition upd_Z {V : Type} (f : Z -> V) (k : Z) (v : V) : Z -> V :=
  fun k' => if Z.eqb k' k then v else f k'.

(** [reports[id]]: ids start at 1; id 0 and ids past the last are unknown. *)
Definition lookupReport (st : State) (id : nat) : option Report :=
  match id with
  | 0 => None
  | S k => nth_error (reports st) k
  end.

Definition set_status (r : Report) (s : ReportStatus) (now : nat) : Report :=
  mkReport (reportId r) (submitter r) (safetyLevel r) (locationCode r)
    (foodTypeCode r) (description r) s (createdAt r) now (isProcessed r)
    (isValid r).

(** The bucket of [getTotalStats] that counts status [s]. *)
Definition bucket (s : ReportStatus) (ts : TotalStats) : nat :=
  match s with
  | Submitted => submitted ts
  | UnderReview => underReview ts
  | Investigating => investigating ts
  | Resolved => resolved ts
  | Closed => closed ts
  end.

Definition set_bucket (s : ReportStatus) (v : nat) (ts : TotalStats) : TotalStats :=
  let '(mkTotalStats t a b c d e) := ts in
  match s with
  | Submitted => mkTotalStats t v b c d e
  | UnderReview => mkTotalStats t a v c d e
  | Investigating => mkTotalStats t a b v d e
  | Resolved => mkTotalStats t a b c v e
  | Closed => mkTotalStats t a b c d v
  end.

(** Decrement the old bucket, increment the new one. *)
Definition adjust_buckets (old new : ReportStatus) (ts : TotalStats) : TotalStats :=
  let ts1 := set_bucket old (bucket old ts - 1) ts in
  set_bucket new (bucket new ts1 + 1) ts1.

(** Write back report [id] (known to exist) moved from status [old]. *)
Definition store_report (st : State) (id : nat) (old : ReportStatus) (r : Report) : State :=
  with_reports st (replace_nth (pred id) r (reports st))
    (adjust_buckets old (status r) (totalStats st)).

(** ** Access control queries *)

Definition isOwner (st : State) (a : address) : bool := Nat.eqb a (owner st).
Definition isRegulator (st : State) (a : address) : bool := Nat.eqb a (regulator st).
Definition isAuthorizedInvestigator (st : State) (a : address) : bool :=
  authorizedInvestigators st a.

(** ** Operations *)

(** Modelled from the spec: [submitAnonymousReport(safetyLevel, locationCode,
    foodTypeCode, description)]; any caller, only the safety level is
    validated. *)
Definition submitAnonymousReport (ctx : Ctx) (level : nat) (loc food : Z)
    (desc : string) (st : State) : Result State :=
  require (level <=? 4) ValidationError ;;;
  let now := blockTimestamp ctx in
  let who := msgSender ctx in
  let newId := S (totalReports st) in
  let r := mkReport newId who level loc food desc Submitted now now false true in
  let ts := totalStats st in
  let ls := locationStats st loc in
  Ok (mkState (owner st) (regulator st) (authorizedInvestigators st) newId
        (reports st ++ [r]) (investigations st)
        (mkTotalStats (S (total ts)) (S (submitted ts)) (underReview ts)
           (investigating ts) (resolved ts) (closed ts))
        (upd_Z (locationStats st) loc
           (mkLocationStats (S (locTotalReports ls)) (resolvedReports ls)
              (safetyLevelSum ls + level) now))
        (upd_addr (reporterStats st) who (S (reporterStats st who)))
        (events st ++ [ReportSubmitted newId who now])).

(** Modelled from the spec: [setRegulator(newRegulator)], owner only. *)
Definition setRegulator (ctx : Ctx) (a : address) (st : State) : Result State :=
  require (isOwner st (msgSender ctx)) AuthorizationError ;;;
  Ok (with_regulator st a).

(** Modelled from the spec: [authorizeInvestigator(identity)], regulator only. *)
Definition authorizeInvestigator (ctx : Ctx) (a : address) (st : State) : Result State :=
  require (isRegulator st (msgSender ctx)) AuthorizationError ;;;
  Ok (emit (with_investigators st (upd_addr (authorizedInvestigators st) a true))
        [InvestigatorAuthorized a]).

(** Modelled from the spec: [revokeInvestigator(identity)], regulator only. *)
Definition revokeInvestigator (ctx : Ctx) (a : address) (st : State) : Result State :=
  require (isRegulator st (msgSender ctx)) AuthorizationError ;;;
  Ok (emit (with_investigators st (upd_addr (authorizedInvestigators st) a false))
        [InvestigatorRevoked a]).

(** Modelled from the spec: the body of [updateReportStatus] once the caller
    is checked: unknown id is a ValidationError; otherwise the status is set
    (no check of the status graph), [lastUpdated = now], the old bucket is
    decremented and the new one incremented. *)
Definition updateOne (ctx : Ctx) (s : ReportStatus) (st : State) (id : nat) : Result State :=
  match lookupReport st id with
  | None => Err ValidationError
  | Some r =>
      Ok (emit (store_report st id (status r) (set_status r s (blockTimestamp ctx)))
            [ReportStatusChanged id s])
  end.

(** Modelled from the spec: [updateReportStatus(id, newStatus)], regulator only. *)
Definition updateReportStatus (ctx : Ctx) (id : nat) (s : ReportStatus) (st : State)
    : Result State :=
  require (isRegulator st (msgSender ctx)) AuthorizationError ;;;
  updateOne ctx s st id.

Fixpoint batch_loop (ctx : Ctx) (s : ReportStatus) (ids : list nat) (st : State)
    : Result State :=
  match ids with
  | [] => Ok st
  | id :: rest => st' <- updateOne ctx s st id ;; batch_loop ctx s rest st'
  end.

(** Modelled from the spec: [batchUpdateStatus(ids, newStatus)], regulator
    only; the whole list is one atomic unit (an unknown id reverts the
    batch). *)
Definition batchUpdateStatus (ctx : Ctx) (ids : list nat) (s : ReportStatus) (st : State)
    : Result State :=
  require (isRegulator st (msgSender ctx)) AuthorizationError ;;;
  batch_loop ctx s ids st.

(** Modelled from the spec: [emergencyCloseReport(id, reason)], owner only;
    forces Closed, [isValid = false], [lastUpdated = now] whatever the
    current status. *)
Definition emergencyCloseReport (ctx : Ctx) (id : nat) (reason : string) (st : State)
    : Result State :=
  require (isOwner st (msgSender ctx)) AuthorizationError ;;;
  match lookupReport st id with
  | None => Err ValidationError
  | Some r =>
      let r' := mkReport (reportId r) (submitter r) (safetyLevel r) (locationCode r)
                  (foodTypeCode r) (description r) Closed (createdAt r)
                  (blockTimestamp ctx) (isProcessed r) false in
      Ok (emit (store_report st id (status r) r')
            [ReportStatusChanged id Closed; EmergencyCloseAudit id reason])
  end.

(** Modelled from the spec: [startInvestigation(id)], authorized investigator
    or regulator; StateError on Investigating, Resolved or Closed; otherwise
    the investigation is created and the report forced to Investigating. *)
Definition startInvestigation (ctx : Ctx) (id : nat) (st : State) : Result State :=
  let who := msgSender ctx in
  require (isAuthorizedInvestigator st who || isRegulator st who) AuthorizationError ;;;
  match lookupReport st id with
  | None => Err ValidationError
  | Some r =>
      match status r with
      | Investigating | Resolved | Closed => Err StateError
      | Submitted | UnderReview =>
          let inv := mkInvestigation id who (blockTimestamp ctx) 0 false 0 EmptyString in
          let st1 := store_report st id (status r) (set_status r Investigating (lastUpdated r)) in
          Ok (emit (with_investigations st1 (upd_nat (investigations st) id (Some inv)))
                [InvestigationStarted id who])
      end
  end.

(** Modelled from the spec: [completeInvestigation(id, finalSafetyLevel,
    findings)], assigned investigator or regulator; ValidationError without an
    investigation, StateError once complete; otherwise completes it and forces
    the report to Resolved with [isProcessed = true]. *)
Definition completeInvestigation (ctx : Ctx) (id : nat) (level : nat) (fnd : string)
    (st : State) : Result State :=
  let who := msgSender ctx in
  let assigned := match investigations st id with
                  | Some inv => Nat.eqb who (investigator inv)
                  | None => false
                  end in
  require (assigned || isRegulator st who) AuthorizationError ;;;
  match investigations st id with
  | None => Err ValidationError
  | Some inv =>
      if isComplete inv then Err StateError else
      match lookupReport st id with
      | None => Err ValidationError
      | Some r =>
          let now := blockTimestamp ctx in
          let inv' := mkInvestigation (invReportId inv) (investigator inv) (startTime inv)
                        now true level fnd in
          let r' := mkReport (reportId r) (submitter r) (safetyLevel r) (locationCode r)
                      (foodTypeCode r) (description r) Resolved (createdAt r)
                      (lastUpdated r) true (isValid r) in
          let ls := locationStats st (locationCode r) in
          let st1 := store_report st id (status r) r' in
          let st2 := with_investigations st1 (upd_nat (investigations st) id (Some inv')) in
          let st3 := with_locationStats st2
                       (upd_Z (locationStats st) (locationCode r)
                          (mkLocationStats (locTotalReports ls) (S (resolvedReports ls))
                             (safetyLevelSum ls) (lastReportTime ls))) in
          Ok (emit st3 [InvestigationCompleted id level])
      end
  end.

(** ** Transactions *)

(** The public mutating entry points of the contract. *)
Inductive Call :=
| CSubmitAnonymousReport (level : nat) (loc food : Z) (desc : string)
| CSetRegulator (a : address)
| CAuthorizeInvestigator (a : address)
| CRevokeInvestigator (a : address)
| CUpdateReportStatus (id : nat) (s : ReportStatus)
| CBatchUpdateStatus (ids : list nat) (s : ReportStatus)
| CEmergencyCloseReport (id : nat) (reason : string)
| CStartInvestigation (id : nat)
| CCompleteInvestigation (id : nat) (level : nat) (fnd : string).

Definition exec (ctx : Ctx) (c : Call) (st : State) : Result State :=
  match c with
  | CSubmitAnonymousReport l loc food d => submitAnonymousReport ctx l loc food d st
  | CSetRegulator a => setRegulator ctx a st
  | CAuthorizeInvestigator a => authorizeInvestigator ctx a st
  | CRevokeInvestigator a => revokeInvestigator ctx a st
  | CUpdateReportStatus id s => updateReportStatus ctx id s st
  | CBatchUpdateStatus ids s => batchUpdateStatus ctx ids s st
  | CEmergencyCloseReport id reason => emergencyCloseReport ctx id reason st
  | CStartInvestigation id => startInvestigation ctx id st
  | CCompleteInvestigation id l f => completeInvestigation ctx id l f st
  end.

(** A transaction: on success its new state is committed, on failure it
    reverts and the old state is kept; the error (if any) is returned. *)
Definition apply (st : State) (ctx : Ctx) (c : Call) : State * option Error :=
  match exec ctx c st with
  | Ok st' => (st', None)
  | Err e => (st, Some e)
  end.

(** The deployment: [owner = regulator = deployer], everything else empty. *)
Definition init (deployer : address) : State :=
  mkState deployer deployer (fun _ => false) 0 [] (fun _ => None) emptyTotalStats
    (fun _ => emptyLocationStats) (fun _ => 0) [].

(** A serialized sequence of transactions, failed ones included. *)
Fixpoint run (st : State) (tr : list (Ctx * Call)) : State :=
  match tr with
  | [] => st
  | (ctx, c) :: rest => run (fst (apply st ctx c)) rest
  end.

(** ** Read-only queries *)

Definition getTotalStats (st : State) : TotalStats := totalStats st.
Definition getLocationStats (st : State) (code : Z) : LocationStats := locationStats st code.
Definition getReporterStats (st : State) (a : address) : nat := reporterStats st a.
Definition getInvestigationInfo (st : State) (id : nat) : option Investigation :=
  investigations st id.
Definition reportStatusOf (st : State) (id : nat) : option ReportStatus :=
  option_map status (lookupReport st id).

(** Number of stored reports satisfying [p]. *)
Definition count_reports (p : Report -> bool) (rs : list Report) : nat :=
  List.length (filter p rs).

(** ** Sample runs (the end-to-end scenario of the specification) *)

Definition deployer : address := 1.
Definition inv1 : address := 3.
Definition reporter1 : address := 5.

Definition scenario : list (Ctx * Call) :=
  [ (mkCtx deployer 10, CAuthorizeInvestigator inv1);
    (mkCtx reporter1 11, CSubmitAnonymousReport 2 1001 5001 "leak"%string);
    (mkCtx inv1 12, CStartInvestigation 1);
    (mkCtx inv1 13, CCompleteInvestigation 1 2 "fixed"%string) ].


(** ** Vocabulary of the statements *)

Definition b2n (b : bool) : nat := if b then 1 else 0.

(** A 1000-character description. *)
Definition long_description : string :=
  Eval cbv in (concat EmptyString (List.repeat "AAAAAAAAAA"%string 100)).

(** Position of a status along Submitted -> UnderReview -> Investigating ->
    Resolved, with Closed last. *)
Definition chain_rank (s : ReportStatus) : nat :=
  match s with
  | Submitted => 0
  | UnderReview => 1
  | Investigating => 2
  | Resolved => 3
  | Closed => 4
  end.

(** A move that is not backwards: to Closed (the emergency path), or from a
    status other than Closed forward (or nowhere) along the chain. *)
Definition forward_move (s s' : ReportStatus) : Prop :=
  s' = Closed \/ (s <> Closed /\ chain_rank s <= chain_rank s').









(** The statistics are exact counts over the report arena. *)
Definition stats_inv (st : State) : Prop :=
  total (totalStats st) = List.length (reports st) /\
  (forall s, bucket s (totalStats st) = count_reports (fun r => status_eqb (status r) s) (reports st)) /\
  (forall L, locTotalReports (locationStats st L)
             = count_reports (fun r => Z.eqb (locationCode r) L) (reports st)).

(** ** Sample states *)

(** Report 1 submitted, then emergency-closed by the owner. *)
Definition closed_once : State :=
  run (init 1) [ (mkCtx 5 11, CSubmitAnonymousReport 2 1001 5001 "spam"%string);
                 (mkCtx 1 12, CEmergencyCloseReport 1 "Spam"%string) ].

Definition three_reports : State :=
  run (init 1) [ (mkCtx 5 11, CSubmitAnonymousReport 2 1001 5001 "Issue 1"%string);
                 (mkCtx 5 12, CSubmitAnonymousReport 3 1002 5002 "Issue 2"%string);
                 (mkCtx 5 13, CSubmitAnonymousReport 1 1003 5003 "Issue 3"%string) ].

(** Report 1 under investigation by [inv1], then emergency-closed. *)
Definition closed_under_investigation : State :=
  run (init 1) [ (mkCtx 1 10, CAuthorizeInvestigator inv1);
                 (mkCtx 5 11, CSubmitAnonymousReport 2 1001 5001 "Issue"%string);
                 (mkCtx inv1 12, CStartInvestigation 1);
                 (mkCtx 1 13, CEmergencyCloseReport 1 "Spam"%string) ].


(** Report 1 submitted, [inv1] authorized (the first two steps of the
    scenario). *)
Definition submitted_with_investigator : State := run (init deployer) (firstn 2 scenario).

(** Report 1 under investigation by [inv1] (the first three steps). *)
Definition investigation_started : State := run (init deployer) (firstn 3 scenario).

(** The whole scenario: the investigation of report 1 completed. *)
Definition investigation_done : State := run (init deployer) scenario.

(** ** Report information *)

(** Modelled from the spec: the record returned by [getReportInfo(id)], with
    the fields the interaction script reads back ([status], [timestamp],
    [lastUpdated], [isProcessed], [isValid]). *)
Record ReportInfo := mkReportInfo {
  infoStatus : ReportStatus;
  timestamp : nat;
  infoLastUpdated : nat;
  infoIsProcessed : bool;
  infoIsValid : bool
}.

(** Modelled from the spec: [getReportInfo(id)]; an unknown id gives the
    empty record (status default, timestamp 0, not processed, not valid). *)
Definition getReportInfo (st : State) (id : nat) : ReportInfo :=
  match lookupReport st id with
  | Some r => mkReportInfo (status r) (createdAt r) (lastUpdated r) (isProcessed r) (isValid r)
  | None => mkReportInfo Submitted 0 0 false false
  end.

(** ** Ledger bookkeeping *)

(** The fields of a report that no transaction rewrites. *)
Definition report_kept (r r' : Report) : Prop :=
  reportId r' = reportId r /\ submitter r' = submitter r /\
  safetyLevel r' = safetyLevel r /\ locationCode r' = locationCode r /\
  foodTypeCode r' = foodTypeCode r /\ description r' = description r /\
  createdAt r' = createdAt r.

(** Every report stored in [st] is still stored in [st'], same content. *)
Definition reports_kept (st st' : State) : Prop :=
  forall id r, lookupReport st id = Some r ->
    exists r', lookupReport st' id = Some r' /\ report_kept r r'.

(** The ledger's bookkeeping: [totalReports] is the arena size and ids are
    dense, [reporterStats] counts submissions per address, an investigation
    belongs to the stored report of its id, and a location code without
    reports has the all-zero statistics. *)
Definition ledger_inv (st : State) : Prop :=
  totalReports st = List.length (reports st) /\
  (forall k r, nth_error (reports st) k = Some r -> reportId r = S k) /\
  (forall a, reporterStats st a = count_reports (fun r => Nat.eqb (submitter r) a) (reports st)) /\
  (forall id inv, investigations st id = Some inv ->
     invReportId inv = id /\ lookupReport st id <> None) /\
  (forall L, count_reports (fun r => Z.eqb (locationCode r) L) (reports st) = 0 ->
     locationStats st L = emptyLocationStats).

(** ** The simulation script (scripts/simulate.js) *)

(** The script's signers: [signers[0]] is the deployer, [signers.slice(1, 6)]
    the five reporters, [signers.slice(6, 9)] the three investigators;
    signer [k] has address [k + 1]. *)
Definition sim_signer (k : nat) : address := S k.
Definition sim_deployer : address := sim_signer 0.
Definition sim_reporters : list address := map sim_signer [1; 2; 3; 4; 5].
Definition sim_investigators : list address := map sim_signer [6; 7; 8].

Definition LOCATIONS : list Z := [1001; 1002; 1003; 1004; 1005]%Z.
Definition FOOD_TYPES : list Z := [5001; 5002; 5003; 5004; 5005]%Z.
(** The [level] fields of [SAFETY_LEVELS]. *)
Definition SAFETY_LEVELS : list nat := [1; 2; 3; 4].
Definition REPORT_DESCRIPTIONS : list string := [
  "Expired ingredients found in storage area";
  "Improper temperature control in refrigeration unit";
  "Cross-contamination risk between raw and cooked foods";
  "Inadequate hand washing facilities for staff";
  "Pest activity detected in food preparation area";
  "Mold growth on food storage containers";
  "Damaged packaging on food products";
  "Missing or incorrect food labeling";
  "Unsanitary conditions in kitchen area";
  "Equipment malfunction causing food safety risk"]%string.
Definition sim_findings : list string := [
  "Investigation confirmed issue. Corrective actions implemented. Facility passed re-inspection.";
  "Issue resolved. Staff training conducted. Additional monitoring in place.";
  "Violation confirmed. Facility received formal warning. Follow-up inspection scheduled."]%string.

(** One iteration's four [Math.floor(Math.random() * len)] indices, into
    [SAFETY_LEVELS], [LOCATIONS], [FOOD_TYPES] and [REPORT_DESCRIPTIONS]. *)
Record Draw := mkDraw {
  levelIdx : nat;
  locIdx : nat;
  foodIdx : nat;
  descIdx : nat
}.

(** The indices [Math.floor(Math.random() * len)] can produce. *)
Definition draw_ok (d : Draw) : Prop :=
  levelIdx d < 4 /\ locIdx d < 5 /\ foodIdx d < 5 /\ descIdx d < 10.

(** An entry of [submittedReports] ([txHash] left out). *)
Record SubmittedReport := mkSubmitted {
  subId : nat;
  subReporter : address;
  subLevel : nat
}.

(** A sequence of the script's transactions, each in its own [try]/[catch]:
    a failed one is logged and skipped.  The [n]-th transaction of the run is
    mined at time [clock n]. *)
Fixpoint sim_txs (clock : nat -> nat) (st : State) (n : nat) (txs : list (address * Call))
    : State * nat :=
  match txs with
  | [] => (st, n)
  | (who, c) :: rest => sim_txs clock (fst (apply st (mkCtx who (clock n)) c)) (S n) rest
  end.

(** Step 2: iteration [i] submits as [reporters[i % 5]] the drawn report and,
    on success, pushes [{id: initialTotal + i + 1, reporter, safetyLevel}]. *)
Fixpoint sim_submit (clock : nat -> nat) (initialTotal i : nat) (draws : list Draw)
    (st : State) (n : nat) : State * nat * list SubmittedReport :=
  match draws with
  | [] => (st, n, [])
  | d :: rest =>
      let reporter := nth (i mod 5) sim_reporters 0 in
      let level := nth (levelIdx d) SAFETY_LEVELS 0 in
      let c := CSubmitAnonymousReport level (nth (locIdx d) LOCATIONS 0%Z)
                 (nth (foodIdx d) FOOD_TYPES 0%Z)
                 (nth (descIdx d) REPORT_DESCRIPTIONS EmptyString) in
      let '(st1, err) := apply st (mkCtx reporter (clock n)) c in
      let '(st2, n2, subs) := sim_submit clock initialTotal (S i) rest st1 (S n) in
      match err with
      | None => (st2, n2, mkSubmitted (initialTotal + i + 1) reporter level :: subs)
      | Some _ => (st2, n2, subs)
      end
  end.

(** [main()] of scripts/simulate.js against the contract in state [st0], one
    draw per report ([reportCount = 10] draws); returns the final state and
    [submittedReports]. *)
Definition simulate (clock : nat -> nat) (draws : list Draw) (st0 : State)
    : State * list SubmittedReport :=
  let initialTotal := totalReports st0 in
  let '(st1, n1) := sim_txs clock st0 0
                      (map (fun a => (sim_deployer, CAuthorizeInvestigator a)) sim_investigators) in
  let '(st2, n2, subs) := sim_submit clock initialTotal 0 draws st1 n1 in
  let '(st3, n3) := sim_txs clock st2 n2
                      (map (fun s => (sim_deployer, CUpdateReportStatus (subId s) UnderReview))
                         (firstn 5 subs)) in
  let '(st4, n4) := sim_txs clock st3 n3
                      (map (fun '(i, s) => (nth (i mod 3) sim_investigators 0,
                                            CStartInvestigation (subId s)))
                         (combine (seq 0 3) (firstn 3 subs))) in
  let '(st5, _) := sim_txs clock st4 n4
                     (map (fun '(i, s) => (nth (i mod 3) sim_investigators 0,
                                           CCompleteInvestigation (subId s) (subLevel s)
                                             (nth (i mod 3) sim_findings EmptyString)))
                        (combine (seq 0 2) (firstn 2 subs))) in
  (st5, subs).

(** Two states that agree on everything the control flow of the operations
    reads, and on the counters of [getTotalStats] and [getReporterStats];
    they may differ in the report contents, the investigation findings and
    levels, the location statistics and the events. *)
Definition same_flow (st1 st2 : State) : Prop :=
  owner st1 = owner st2 /\ regulator st1 = regulator st2 /\
  (forall a, authorizedInvestigators st1 a = authorizedInvestigators st2 a) /\
  totalReports st1 = totalReports st2 /\
  map status (reports st1) = map status (reports st2) /\
  (forall id, option_map (fun i => (investigator i, isComplete i)) (investigations st1 id)
              = option_map (fun i => (investigator i, isComplete i)) (investigations st2 id)) /\
  totalStats st1 = totalStats st2 /\
  (forall a, reporterStats st1 a = reporterStats st2 a).

(** Calls that drive the operations the same way: equal, or two submissions
    with accepted levels, or two completions of the same id. *)
Inductive same_call : Call -> Call -> Prop :=
| same_call_auth a : same_call (CAuthorizeInvestigator a) (CAuthorizeInvestigator a)
| same_call_update id s : same_call (CUpdateReportStatus id s) (CUpdateReportStatus id s)
| same_call_start id : same_call (CStartInvestigation id) (CStartInvestigation id)
| same_call_submit l1 l2 loc1 loc2 f1 f2 d1 d2 :
    l1 <= 4 -> l2 <= 4 ->
    same_call (CSubmitAnonymousReport l1 loc1 f1 d1) (CSubmitAnonymousReport l2 loc2 f2 d2)
| same_call_complete id l1 l2 f1 f2 :
    same_call (CCompleteInvestigation id l1 f1) (CCompleteInvestigation id l2 f2).

(** A script entry whose report is stored under its id, with its reporter
    and safety level. *)
Definition sub_recorded (st : State) (s : SubmittedReport) : Prop :=
  exists r, lookupReport st (subId s) = Some r /\
    submitter r = subReporter s /\ safetyLevel r = subLevel s.

(** ** The interaction script (unnamed/part_001, scripts/interact.js) *)

(** [const [deployer, reporter1, reporter2, investigator1] = getSigners()]. *)
Definition int_deployer : address := sim_signer 0.
Definition int_reporter1 : address := sim_signer 1.
Definition int_reporter2 : address := sim_signer 2.
Definition int_investigator1 : address := sim_signer 3.

Definition int_report1 : Call :=
  CSubmitAnonymousReport 3 1001 5001 "Expired ingredients found in storage area".
Definition int_report2 : Call :=
  CSubmitAnonymousReport 4 1002 5002 "Severe contamination detected in processing facility".
Definition int_findings : string :=
  "Investigation confirmed: Expired ingredients removed. Facility issued warning. Follow-up inspection scheduled.".

(** [main()] from step 1 on, on the attached contract [st0]: every
    [try] block sends its transactions in order and a failed one ends its
    block (step 2 sends its second report only when the first succeeded);
    the outcome of every transaction sent is listed.  The read-only steps
    3 and 7 to 9 are the queries of the statements. *)
Definition interact (clock : nat -> nat) (st0 : State) : State * list (option Error) :=
  let '(st1, e1) := apply st0 (mkCtx int_deployer (clock 0))
                      (CAuthorizeInvestigator int_investigator1) in
  let '(st2, e2) := apply st1 (mkCtx int_reporter1 (clock 1)) int_report1 in
  let '(st3, n3, es) :=
    match e2 with
    | None => let '(st, e) := apply st2 (mkCtx int_reporter2 (clock 2)) int_report2 in
              (st, 3, [e2; e])
    | Some _ => (st2, 2, [e2])
    end in
  let '(st4, e4) := apply st3 (mkCtx int_deployer (clock n3)) (CUpdateReportStatus 1 UnderReview) in
  let '(st5, e5) := apply st4 (mkCtx int_investigator1 (clock (S n3))) (CStartInvestigation 1) in
  let '(st6, e6) := apply st5 (mkCtx int_investigator1 (clock (S (S n3))))
                      (CCompleteInvestigation 1 3 int_findings) in
  (st6, e1 :: es ++ [e4; e5; e6]).

(** ** The dependency checker (scripts/security/check-dependencies.js) *)

(** The [vulnerabilities] counters of [npm audit --json]'s [metadata];
    a counter the report leaves out is [undefined] ([None]). *)
Record Vulnerabilities := mkVulnerabilities {
  vCritical : option nat; vHigh : option nat; vModerate : option nat;
  vLow : option nat; vInfo : option nat }.

(** What the audit block (lines 15-52) works on: [execSync] or [JSON.parse]
    threw, or the parsed report, with its [metadata] absent or falsy
    ([None]), present without a [vulnerabilities] object ([Some None]), or
    present with one. *)
Inductive AuditInput :=
| AuditThrows
| AuditJson (metadata : option (option Vulnerabilities)).

(** How the audit block ends: [process.exit(1)], the warning, the
    all-clear message, the [catch] branch, or nothing printed. *)
Inductive AuditOutcome := AuditExit1 | AuditWarned | AuditClean | AuditCaught | AuditSkipped.

(** [x || 0] on a counter, and [x > 0] ([undefined > 0] is false). *)
Definition or0 (x : option nat) : nat := match x with Some n => n | None => 0 end.
Definition gt0 (x : option nat) : bool := match x with Some n => 0 <? n | None => false end.

(** The audit block of check-dependencies.js.  Reading a field of a missing
    [vulnerabilities] object throws a TypeError, caught by the [catch]. *)
Definition npm_audit_step (a : AuditInput) : AuditOutcome :=
  match a with
  | AuditThrows => AuditCaught
  | AuditJson None => AuditSkipped
  | AuditJson (Some None) => AuditCaught
  | AuditJson (Some (Some v)) =>
      let totalVulns := or0 (vCritical v) + or0 (vHigh v) + or0 (vModerate v) in
      if 0 <? totalVulns then
        if gt0 (vCritical v) || gt0 (vHigh v) then AuditExit1 else AuditWarned
      else AuditClean
  end.

(** JSON values as [JSON.parse] builds them; an object keeps its entries in
    insertion order, one entry per key (a repeated key keeps its last
    value). *)
#[warnings="-register-all"] Inductive JVal :=
| JNull
| JBool (b : bool)
| JNum (z : Z)
| JStr (s : string)
| JArr (l : list JVal)
| JObj (l : list (string * JVal)).

(** JavaScript truthiness of a property value ([undefined] is [None]);
    JSON has no [NaN]. *)
Definition truthy (v : option JVal) : bool :=
  match v with
  | None | Some JNull => false
  | Some (JBool b) => b
  | Some (JNum z) => negb (Z.eqb z 0)
  | Some (JStr s) => negb (String.eqb s EmptyString)
  | Some (JArr _) | Some (JObj _) => true
  end.

(** Property access [o.k] for the keys the script reads: a missing key, and
    any key of a primitive or an array, is [undefined]. *)
Definition field (o : option JVal) (k : string) : option JVal :=
  match o with
  | Some (JObj l) => match find (fun e => String.eqb (fst e) k) l with
                     | Some (_, v) => Some v
                     | None => None
                     end
  | _ => None
  end.

(** Array-index keys ("0", "1", ..., below 2^32 - 1, no leading zero):
    [Object.entries] lists them first, in ascending numeric order, then the
    other keys in insertion order. *)
Definition digit_of (c : ascii) : option N :=
  let n := N_of_ascii c in
  if (48 <=? n)%N && (n <=? 57)%N then Some (n - 48)%N else None.

Fixpoint digits_value (s : string) (acc : N) : option N :=
  match s with
  | EmptyString => Some acc
  | String c rest =>
      match digit_of c with
      | Some d => digits_value rest (acc * 10 + d)%N
      | None => None
      end
  end.

Definition index_value (k : string) : option N :=
  match k with
  | String "0"%char EmptyString => Some 0%N
  | String c _ =>
      if Ascii.eqb c "0"%char then None else
      match digits_value k 0 with
      | Some n => if (n <? 4294967295)%N then Some n else None
      | None => None
      end
  | EmptyString => None
  end.

Definition is_index_key (k : string) : bool :=
  match index_value k with Some _ => true | None => false end.

Fixpoint insert_by_index (e : string * JVal) (l : list (string * JVal)) : list (string * JVal) :=
  match l with
  | [] => [e]
  | h :: t =>
      match index_value (fst e), index_value (fst h) with
      | Some a, Some b => if (a <? b)%N then e :: h :: t else h :: insert_by_index e t
      | _, _ => h :: insert_by_index e t
      end
  end.

Fixpoint sort_by_index (l : list (string * JVal)) : list (string * JVal) :=
  match l with
  | [] => []
  | h :: t => insert_by_index h (sort_by_index t)
  end.

(** Decimal text of a number, as an array index turned into a key. *)
Fixpoint nat_to_string_aux (fuel n : nat) (acc : string) : string :=
  match fuel with
  | 0 => acc
  | S f =>
      let acc' := String (ascii_of_nat (48 + n mod 10)) acc in
      if n <? 10 then acc' else nat_to_string_aux f (n / 10) acc'
  end.

Definition nat_to_string (n : nat) : string := nat_to_string_aux (S n) n EmptyString.

(** [Object.entries(v)]: an object's entries in property order; an array's
    or a string's elements under their indices; nothing for numbers and
    booleans.  A string is a sequence of one-byte characters. *)
Fixpoint string_chars (s : string) : list JVal :=
  match s with
  | EmptyString => []
  | String c rest => JStr (String c EmptyString) :: string_chars rest
  end.

Definition object_entries (v : JVal) : list (string * JVal) :=
  match v with
  | JObj l => sort_by_index (filter (fun e => is_index_key (fst e)) l)
              ++ filter (fun e => negb (is_index_key (fst e))) l
  | JArr l => combine (map nat_to_string (seq 0 (List.length l))) l
  | JStr s => combine (map nat_to_string (seq 0 (String.length s))) (string_chars s)
  | _ => []
  end.

(** The entries pushed to [securityIssues] (lines 90-113). *)
Inductive SecurityIssue :=
| MissingEngine
| MissingRepository
| WildcardVersion (type pkg : string).

(** [version === "*" || version === "latest"]. *)
Definition is_wildcard (v : JVal) : bool :=
  match v with
  | JStr s => String.eqb s "*" || String.eqb s "latest"
  | _ => false
  end.

(** [checkWildcards(deps, type)] (lines 102-110). *)
Definition checkWildcards (deps : option JVal) (type : string) : list SecurityIssue :=
  match deps with
  | Some d =>
      if truthy deps then
        map (fun e => WildcardVersion type (fst e)) (filter (fun e => is_wildcard (snd e)) (object_entries d))
      else []
  | None => []
  end.

(** The package.json checks (lines 88-113) on the parsed file: [None] when
    the file is [null] and [packageJson.engines] throws. *)
Definition package_issues (pj : JVal) : option (list SecurityIssue) :=
  match pj with
  | JNull => None
  | _ =>
      let p := Some pj in
      Some ((if negb (truthy (field p "engines")) || negb (truthy (field (field p "engines") "node"))
             then [MissingEngine] else [])
            ++ (if negb (truthy (field p "repository")) then [MissingRepository] else [])
            ++ checkWildcards (field p "dependencies") "Dependency"
            ++ checkWildcards (field p "devDependencies") "DevDependency")
  end.

(** [String.prototype.includes]: [p] occurs in [s] at some position. *)
Fixpoint includes (s p : string) : bool :=
  String.prefix p s ||
  match s with
  | EmptyString => false
  | String _ rest => includes rest p
  end.

(** The .gitignore check (lines 129-138). *)
Definition sensitivePatterns : list string := [".env"%string; "*.key"%string; "*.pem"%string; "private"%string; "secret"%string].

Definition missingPatterns (gitignore : string) : list string :=
  filter (fun p => negb (includes gitignore p)) sensitivePatterns.

(** ** The contract security checker (unnamed/part_000) *)

(** [content.split("\n")]: the text between newlines, the empty text
    before a leading newline and after a trailing one included. *)
Definition newline : ascii := ascii_of_nat 10.

Fixpoint split_nl (s : string) : list string :=
  match s with
  | EmptyString => [EmptyString]
  | String c rest =>
      if Ascii.eqb c newline then EmptyString :: split_nl rest
      else match split_nl rest with
           | h :: t => String c h :: t
           | [] => [String c EmptyString]
           end
  end.

(** The line-number loop of [analyzeContract] (lines 66-74): the first line
    [i + 1] whose text up to its end (newline counted) contains [match]; 0 if
    none does. *)
Fixpoint line_loop (content m : string) (ls : list string) (i charCount : nat) : nat :=
  match ls with
  | [] => 0
  | l :: rest =>
      let cc := charCount + (String.length l + 1) in
      if includes (substring 0 cc content) m then S i
      else line_loop content m rest (S i) cc
  end.

Definition findLineNum (content m : string) : nat :=
  line_loop content m (split_nl content) 0 0.

(** The characters of the first [k] lines, each with its newline. *)
Definition lines_len (ls : list string) : nat :=
  list_sum (map (fun l => String.length l + 1) ls).

Definition line_end (content : string) (k : nat) : nat :=
  lines_len (firstn k (split_nl content)).

(** [CHECKS] (lines 9-50); each regular expression is kept as its source
    text, its matching is the [matchOf] argument of [analyzeContract]. *)
Inductive Severity := CRITICAL | HIGH | MEDIUM | LOW | INFO.

Definition severity_eqb (a b : Severity) : bool :=
  match a, b with
  | CRITICAL, CRITICAL | HIGH, HIGH | MEDIUM, MEDIUM | LOW, LOW | INFO, INFO => true
  | _, _ => false
  end.

Record SecurityCheck := mkCheck {
  checkName : string;
  pattern : string;
  severity : Severity;
  message : string
}.

Definition SELFDESTRUCT : SecurityCheck :=
  mkCheck "SELFDESTRUCT" "/selfdestruct\s*\(/gi" CRITICAL
    "Usage of selfdestruct found - potential security risk".
Definition DELEGATECALL : SecurityCheck :=
  mkCheck "DELEGATECALL" "/delegatecall\s*\(/gi" HIGH
    "Usage of delegatecall found - ensure proper access control".
Definition TX_ORIGIN : SecurityCheck :=
  mkCheck "TX_ORIGIN" "/tx\.origin/gi" HIGH
    "Usage of tx.origin found - use msg.sender instead".
Definition UNCHECKED_CALL : SecurityCheck :=
  mkCheck "UNCHECKED_CALL" "/\.call\{/gi" MEDIUM
    "Low-level call found - ensure return value is checked".
Definition TIMESTAMP_DEPENDENCY : SecurityCheck :=
  mkCheck "TIMESTAMP_DEPENDENCY" "/block\.timestamp|now/gi" MEDIUM
    "Timestamp dependency found - miners can manipulate".
Definition FLOATING_PRAGMA : SecurityCheck :=
  mkCheck "FLOATING_PRAGMA" "/pragma\s+solidity\s+\^/gi" LOW
    "Floating pragma found - consider locking to specific version".
Definition MISSING_NATSPEC : SecurityCheck :=
  mkCheck "MISSING_NATSPEC" "/function\s+\w+.*\{/gi" INFO
    "Consider adding NatSpec documentation".

Definition CHECKS : list SecurityCheck :=
  [SELFDESTRUCT; DELEGATECALL; TX_ORIGIN; UNCHECKED_CALL; TIMESTAMP_DEPENDENCY;
   FLOATING_PRAGMA; MISSING_NATSPEC].

Record Finding := mkFinding {
  fCheck : string;
  fSeverity : Severity;
  fMessage : string;
  fLine : nat;
  fCode : string
}.

(** [analyzeContract(filePath)] on the file's [content]: [matchOf c] is
    [content.match(c.pattern)] ([null] as the empty list).  It returns the
    verdict and the findings it prints. *)
Definition severity_count (s : Severity) (fs : list Finding) : nat :=
  List.length (filter (fun f => severity_eqb (fSeverity f) s) fs).

Definition analyzeContract (content : string) (matchOf : SecurityCheck -> list string)
    : bool * list Finding :=
  let findings :=
    flat_map (fun c => map (fun m => mkFinding (checkName c) (severity c) (message c)
                                       (findLineNum content m) m) (matchOf c)) CHECKS in
  match findings with
  | [] => (true, findings)
  | _ => (negb ((0 <? severity_count CRITICAL findings) || (0 <? severity_count HIGH findings)),
          findings)
  end.

(** [file.endsWith(suffix)]. *)
Fixpoint ends_with (suffix s : string) : bool :=
  String.eqb s suffix ||
  match s with
  | EmptyString => false
  | String _ rest => ends_with suffix rest
  end.

(** [main()] of the checker: the exit code, given whether the contracts
    directory exists, its entries (name and content) and the regular
    expression matcher. *)
Definition security_main (contractsDirExists : bool) (dir : list (string * string))
    (matcher : string -> SecurityCheck -> list string) : nat :=
  if negb contractsDirExists then 1 else
  let files := filter (fun f => ends_with ".sol" (fst f)) dir in
  match files with
  | [] => 0
  | _ =>
      let allPassed := forallb (fun f => fst (analyzeContract (snd f) (matcher (snd f)))) files in
      if allPassed then 0 else 1
  end.

(** A two-line contract text with [now] twice on its second line. *)
Definition sample_contract : string :=
  ("pragma solidity ^0.8.0;" ++ String newline "uint t = now; uint u = now;")%string.

(** * Properties *)

(** The end-to-end scenario of the specification. *)
Example scenario_status :
  reportStatusOf (run (init deployer) (firstn 2 scenario)) 1 = Some Submitted /\
  reportStatusOf (run (init deployer) (firstn 3 scenario)) 1 = Some Investigating /\
  reportStatusOf (run (init deployer) scenario) 1 = Some Resolved /\
  totalReports (run (init deployer) scenario) = 1.
Proof. vm_compute. repeat split. Qed.

(** ** Lemmas on the report arena *)

Lemma length_replace_nth {A : Type} (n : nat) (x : A) (l : list A) :
  List.length (replace_nth n x l) = List.length l.
Proof.
  revert n; induction l as [|h t IH]; intros [|n]; simpl; auto.
Qed.

Lemma nth_replace_nth_same {A : Type} (n : nat) (x y : A) (l : list A) :
  nth_error l n = Some y -> nth_error (replace_nth n x l) n = Some x.
Proof.
  revert n; induction l as [|h t IH]; intros [|n] H; simpl in *; try discriminate; auto.
Qed.

Lemma nth_replace_nth_other {A : Type} (n m : nat) (x : A) (l : list A) :
  n <> m -> nth_error (replace_nth n x l) m = nth_error l m.
Proof.
  revert n m; induction l as [|h t IH]; intros [|n] [|m] H; simpl; auto; congruence.
Qed.

Lemma count_reports_app (p : Report -> bool) (l : list Report) (x : Report) :
  count_reports p (l ++ [x]) = count_reports p l + b2n (p x).
Proof.
  unfold count_reports, b2n. rewrite filter_app, length_app. simpl.
  destruct (p x); reflexivity.
Qed.

Lemma count_reports_replace (p : Report -> bool) (n : nat) (x y : Report) (l : list Report) :
  nth_error l n = Some y ->
  count_reports p (replace_nth n x l) + b2n (p y) = count_reports p l + b2n (p x).
Proof.
  unfold count_reports, b2n.
  revert n; induction l as [|h t IH]; intros [|n] H; simpl in *; try discriminate.
  - injection H as ->. destruct (p x), (p y); simpl; lia.
  - specialize (IH n H). destruct (p h); simpl; lia.
Qed.

Lemma lookup_store_same (st : State) (id : nat) (old : ReportStatus) (r0 r : Report) :
  lookupReport st id = Some r0 -> lookupReport (store_report st id old r) id = Some r.
Proof.
  destruct id as [|k]; simpl; [discriminate|].
  apply nth_replace_nth_same.
Qed.

Lemma lookup_store_other (st : State) (id id' : nat) (old : ReportStatus) (r0 r : Report) :
  lookupReport st id = Some r0 -> id' <> id ->
  lookupReport (store_report st id old r) id' = lookupReport st id'.
Proof.
  destruct id as [|k]; simpl; [discriminate|].
  intros _ Hne. destruct id' as [|k']; simpl; auto.
  apply nth_replace_nth_other. lia.
Qed.

Lemma lookup_emit (st : State) (es : list Event) (id : nat) :
  lookupReport (emit st es) id = lookupReport st id.
Proof. reflexivity. Qed.

Lemma lookup_with_investigations (st : State) f (id : nat) :
  lookupReport (with_investigations st f) id = lookupReport st id.
Proof. reflexivity. Qed.

Lemma lookup_with_locationStats (st : State) f (id : nat) :
  lookupReport (with_locationStats st f) id = lookupReport st id.
Proof. reflexivity. Qed.

Lemma lookup_store_some (st : State) (id id' : nat) (old : ReportStatus) (r0 r : Report) :
  lookupReport st id = Some r0 -> lookupReport st id' <> None ->
  lookupReport (store_report st id old r) id' <> None.
Proof.
  intros H0 H1. destruct (Nat.eq_dec id' id) as [->|Hne].
  - erewrite lookup_store_same by eassumption. discriminate.
  - erewrite lookup_store_other by eassumption. exact H1.
Qed.

(** ** Unfolding the role checks *)

Lemma isRegulator_false (st : State) (a : address) :
  a <> regulator st -> isRegulator st a = false.
Proof. intro H. unfold isRegulator. apply Nat.eqb_neq. exact H. Qed.

Lemma isOwner_false (st : State) (a : address) :
  a <> owner st -> isOwner st a = false.
Proof. intro H. unfold isOwner. apply Nat.eqb_neq. exact H. Qed.

Lemma isRegulator_true (st : State) (a : address) :
  a = regulator st -> isRegulator st a = true.
Proof. intro H. unfold isRegulator. apply Nat.eqb_eq. exact H. Qed.

Lemma isOwner_true (st : State) (a : address) :
  a = owner st -> isOwner st a = true.
Proof. intro H. unfold isOwner. apply Nat.eqb_eq. exact H. Qed.

(** ** Report submission *)

(** C1: for every caller, a submission with a safety level in [0,4]
    succeeds and increases [totalReports] by exactly one; with safety level 5
    it fails with ValidationError and the whole state, every counter
    included, is unchanged. *)
Theorem submit_level_bounds (st : State) (ctx : Ctx) (loc food : Z) (desc : string) :
  (forall level, level <= 4 ->
     exists st', apply st ctx (CSubmitAnonymousReport level loc food desc) = (st', None)
              /\ totalReports st' = S (totalReports st)) /\
  apply st ctx (CSubmitAnonymousReport 5 loc food desc) = (st, Some ValidationError).
Proof.
  split.
  - intros level Hl. unfold apply, exec, submitAnonymousReport, require.
    apply Nat.leb_le in Hl. rewrite Hl. simpl.
    eexists. split; reflexivity.
  - reflexivity.
Qed.

Lemma submit_level_bounds_witness :
  (exists st', apply (init 1) (mkCtx 5 7) (CSubmitAnonymousReport 0 1001 5001 EmptyString)
                 = (st', None) /\ totalReports st' = S (totalReports (init 1))) /\
  apply (init 1) (mkCtx 5 7) (CSubmitAnonymousReport 5 1001 5001 EmptyString)
    = (init 1, Some ValidationError).
Proof.
  split.
  - apply (proj1 (submit_level_bounds (init 1) (mkCtx 5 7) 1001 5001 EmptyString) 0). lia.
  - exact (proj2 (submit_level_bounds (init 1) (mkCtx 5 7) 1001 5001 EmptyString)).
Defined.

(** C10: the submission validates the safety level only: for every location
    and food-type code in the uint32 range and every description, a
    submission with a level in [0,4] succeeds and emits [ReportSubmitted]
    with the new id, the caller and the block time. *)
Theorem submit_validates_only_level (st : State) (ctx : Ctx) (level : nat)
    (loc food : Z) (desc : string)
    (Hlevel : level <= 4)
    (Hloc : (0 <= loc < 2 ^ 32)%Z) (Hfood : (0 <= food < 2 ^ 32)%Z) :
  exists st', apply st ctx (CSubmitAnonymousReport level loc food desc) = (st', None) /\
    events st' = events st ++ [ReportSubmitted (S (totalReports st)) (msgSender ctx)
                                 (blockTimestamp ctx)].
Proof.
  unfold apply, exec, submitAnonymousReport, require.
  apply Nat.leb_le in Hlevel. rewrite Hlevel. simpl.
  eexists. split; reflexivity.
Qed.

Lemma submit_validates_only_level_witness :
  (exists st', apply (init 1) (mkCtx 5 7)
                 (CSubmitAnonymousReport 4 4294967295 4294967295 long_description) = (st', None) /\
    events st' = events (init 1) ++ [ReportSubmitted 1 5 7]) /\
  (exists st', apply (init 1) (mkCtx 5 7) (CSubmitAnonymousReport 0 0 0 EmptyString) = (st', None) /\
    events st' = events (init 1) ++ [ReportSubmitted 1 5 7]).
Proof.
  split.
  - apply (submit_validates_only_level (init 1) (mkCtx 5 7) 4 4294967295 4294967295
             long_description); [lia | vm_compute; split; congruence | vm_compute; split; congruence].
  - apply (submit_validates_only_level (init 1) (mkCtx 5 7) 0 0 0 EmptyString);
      [lia | vm_compute; split; congruence | vm_compute; split; congruence].
Defined.

(** ** Role checks *)

(** C3: a caller other than the regulator gets AuthorizationError from
    [updateReportStatus], [batchUpdateStatus], [authorizeInvestigator] and
    [revokeInvestigator], and a caller other than the owner from
    [setRegulator] and [emergencyCloseReport]; the state is unchanged. *)
Theorem role_checks_revert (st : State) (ctx : Ctx) :
  (msgSender ctx <> regulator st ->
     forall id ids s a,
       apply st ctx (CUpdateReportStatus id s) = (st, Some AuthorizationError) /\
       apply st ctx (CBatchUpdateStatus ids s) = (st, Some AuthorizationError) /\
       apply st ctx (CAuthorizeInvestigator a) = (st, Some AuthorizationError) /\
       apply st ctx (CRevokeInvestigator a) = (st, Some AuthorizationError)) /\
  (msgSender ctx <> owner st ->
     forall id reason a,
       apply st ctx (CSetRegulator a) = (st, Some AuthorizationError) /\
       apply st ctx (CEmergencyCloseReport id reason) = (st, Some AuthorizationError)).
Proof.
  split.
  - intros Hreg id ids s a. apply isRegulator_false in Hreg.
    unfold apply, exec, updateReportStatus, batchUpdateStatus, authorizeInvestigator,
      revokeInvestigator, require.
    rewrite Hreg. repeat split.
  - intros Hown id reason a. apply isOwner_false in Hown.
    unfold apply, exec, setRegulator, emergencyCloseReport, require.
    rewrite Hown. split; reflexivity.
Qed.

Lemma role_checks_revert_witness :
  (forall id ids s a,
     apply (init 1) (mkCtx 5 7) (CUpdateReportStatus id s) = (init 1, Some AuthorizationError) /\
     apply (init 1) (mkCtx 5 7) (CBatchUpdateStatus ids s) = (init 1, Some AuthorizationError) /\
     apply (init 1) (mkCtx 5 7) (CAuthorizeInvestigator a) = (init 1, Some AuthorizationError) /\
     apply (init 1) (mkCtx 5 7) (CRevokeInvestigator a) = (init 1, Some AuthorizationError)) /\
  (forall id reason a,
     apply (init 1) (mkCtx 5 7) (CSetRegulator a) = (init 1, Some AuthorizationError) /\
     apply (init 1) (mkCtx 5 7) (CEmergencyCloseReport id reason)
       = (init 1, Some AuthorizationError)).
Proof.
  split.
  - apply (proj1 (role_checks_revert (init 1) (mkCtx 5 7))). simpl. discriminate.
  - apply (proj2 (role_checks_revert (init 1) (mkCtx 5 7))). simpl. discriminate.
Defined.

(** ** Emergency close *)

(** C8: for every existing report, whatever its status (Closed included),
    [emergencyCloseReport] by the owner succeeds; afterwards the report is
    Closed, [isValid = false], [lastUpdated] is the block time, the status
    buckets are moved from the old status to Closed, and
    [ReportStatusChanged(id, Closed)] is emitted with the reason. *)
Theorem emergency_close_forces_closed (st : State) (ctx : Ctx) (id : nat)
    (reason : string) (r : Report)
    (Hown : msgSender ctx = owner st) (Hr : lookupReport st id = Some r) :
  exists st', apply st ctx (CEmergencyCloseReport id reason) = (st', None) /\
    (exists r', lookupReport st' id = Some r' /\ status r' = Closed /\
                isValid r' = false /\ lastUpdated r' = blockTimestamp ctx) /\
    totalStats st' = adjust_buckets (status r) Closed (totalStats st) /\
    events st' = events st ++ [ReportStatusChanged id Closed; EmergencyCloseAudit id reason].
Proof.
  unfold apply, exec, emergencyCloseReport, require.
  rewrite (isOwner_true st _ Hown). simpl. rewrite Hr.
  eexists. split; [reflexivity|]. split; [|split; reflexivity].
  eexists. rewrite lookup_emit. split; [eapply lookup_store_same; eexact Hr|].
  repeat split.
Qed.

Lemma emergency_close_forces_closed_witness :
  exists r, lookupReport closed_once 1 = Some r /\ status r = Closed /\
  exists st', apply closed_once (mkCtx 1 13) (CEmergencyCloseReport 1 "again"%string) = (st', None) /\
    (exists r', lookupReport st' 1 = Some r' /\ status r' = Closed /\
                isValid r' = false /\ lastUpdated r' = 13) /\
    totalStats st' = adjust_buckets (status r) Closed (totalStats closed_once) /\
    events st' = events closed_once ++
                 [ReportStatusChanged 1 Closed; EmergencyCloseAudit 1 "again"%string].
Proof.
  eexists. split; [cbv; reflexivity|]. split; [reflexivity|].
  apply (emergency_close_forces_closed closed_once (mkCtx 1 13) 1 "again"%string);
    [reflexivity | cbv; reflexivity].
Defined.

(** ** Batch status updates *)

Lemma updateOne_ok (ctx : Ctx) (s : ReportStatus) (st : State) (id : nat) (r : Report) :
  lookupReport st id = Some r ->
  updateOne ctx s st id
  = Ok (emit (store_report st id (status r) (set_status r s (blockTimestamp ctx)))
          [ReportStatusChanged id s]).
Proof. intro Hr. unfold updateOne. rewrite Hr. reflexivity. Qed.

Lemma batch_loop_spec (ctx : Ctx) (s : ReportStatus) (ids : list nat) :
  forall st, (forall id, In id ids -> lookupReport st id <> None) ->
  exists st', batch_loop ctx s ids st = Ok st' /\
    events st' = events st ++ map (fun id => ReportStatusChanged id s) ids /\
    (forall x, reportStatusOf st x = Some s -> reportStatusOf st' x = Some s) /\
    (forall x, In x ids -> reportStatusOf st' x = Some s).
Proof.
  induction ids as [|id rest IH]; intros st Hall.
  - exists st. simpl. rewrite app_nil_r. repeat split; auto. intros x [].
  - destruct (lookupReport st id) as [r|] eqn:Hr;
      [|exfalso; apply (Hall id); simpl; auto].
    set (st1 := emit (store_report st id (status r) (set_status r s (blockTimestamp ctx)))
                  [ReportStatusChanged id s]).
    assert (Hsame : reportStatusOf st1 id = Some s).
    { unfold reportStatusOf, st1. rewrite lookup_emit.
      erewrite lookup_store_same by exact Hr. reflexivity. }
    assert (Hother : forall x, x <> id -> lookupReport st1 x = lookupReport st x).
    { intros x Hx. unfold st1. rewrite lookup_emit. eapply lookup_store_other; eauto. }
    destruct (IH st1) as (st' & Hrun & Hev & Hkeep & Hin).
    { intros x Hx. destruct (Nat.eq_dec x id) as [->|Hne].
      - unfold reportStatusOf in Hsame. destruct (lookupReport st1 id); discriminate.
      - rewrite (Hother x Hne). apply Hall. simpl; auto. }
    exists st'. simpl. rewrite (updateOne_ok ctx s st id r Hr). simpl.
    split; [exact Hrun|]. split.
    + rewrite Hev. unfold st1. simpl. rewrite <- app_assoc. reflexivity.
    + split.
      * intros x Hx. apply Hkeep. destruct (Nat.eq_dec x id) as [->|Hne]; [exact Hsame|].
        unfold reportStatusOf. rewrite (Hother x Hne). exact Hx.
      * intros x [<-|Hx]; [apply Hkeep; exact Hsame | apply Hin; exact Hx].
Qed.

(** C7: for the regulator, [batchUpdateStatus([], s)] succeeds and leaves the
    state as it is; with a list of existing ids it succeeds as one
    transaction, after which every listed report has status [s], and exactly
    one [ReportStatusChanged(id, s)] is emitted per listed id, in order. *)
Theorem batch_update_all (st : State) (ctx : Ctx) (s : ReportStatus)
    (Hreg : msgSender ctx = regulator st) :
  apply st ctx (CBatchUpdateStatus [] s) = (st, None) /\
  forall ids, (forall id, In id ids -> lookupReport st id <> None) ->
    exists st', apply st ctx (CBatchUpdateStatus ids s) = (st', None) /\
      (forall id, In id ids -> reportStatusOf st' id = Some s) /\
      events st' = events st ++ map (fun id => ReportStatusChanged id s) ids.
Proof.
  unfold apply, exec, batchUpdateStatus, require.
  rewrite (isRegulator_true st _ Hreg). simpl. split; [reflexivity|].
  intros ids Hall. destruct (batch_loop_spec ctx s ids st Hall) as (st' & Hrun & Hev & _ & Hin).
  rewrite Hrun. exists st'. auto.
Qed.

Lemma batch_update_all_witness :
  apply three_reports (mkCtx 1 20) (CBatchUpdateStatus [] UnderReview) = (three_reports, None) /\
  exists st', apply three_reports (mkCtx 1 20) (CBatchUpdateStatus [1; 2; 3] UnderReview)
                = (st', None) /\
    (forall id, In id [1; 2; 3] -> reportStatusOf st' id = Some UnderReview) /\
    events st' = events three_reports ++
                 map (fun id => ReportStatusChanged id UnderReview) [1; 2; 3].
Proof.
  pose proof (batch_update_all three_reports (mkCtx 1 20) UnderReview eq_refl) as [H0 H].
  split; [exact H0|]. apply H.
  intros id [<-|[<-|[<-|[]]]]; vm_compute; discriminate.
Defined.

(** ** The statistics invariant *)

Lemma bucket_adjust (old new s : ReportStatus) (ts : TotalStats) :
  1 <= bucket old ts ->
  bucket s (adjust_buckets old new ts) + b2n (status_eqb old s)
  = bucket s ts + b2n (status_eqb new s).
Proof.
  destruct ts as [t a b c d e].
  destruct old, new, s; cbn; lia.
Qed.

Lemma total_adjust (old new : ReportStatus) (ts : TotalStats) :
  total (adjust_buckets old new ts) = total ts.
Proof. destruct ts; destruct old, new; reflexivity. Qed.

Lemma status_eqb_refl (s : ReportStatus) : status_eqb s s = true.
Proof. destruct s; reflexivity. Qed.

Lemma count_reports_ge (p : Report -> bool) (n : nat) (y : Report) (l : list Report) :
  nth_error l n = Some y -> b2n (p y) <= count_reports p l.
Proof.
  unfold count_reports, b2n.
  revert n; induction l as [|h t IH]; intros [|n] H; simpl in *; try discriminate.
  - injection H as ->. destruct (p y); simpl; lia.
  - specialize (IH n H). destruct (p h); simpl; lia.
Qed.

Lemma stats_inv_store (st : State) (id : nat) (r0 r : Report) :
  lookupReport st id = Some r0 -> locationCode r = locationCode r0 ->
  stats_inv st -> stats_inv (store_report st id (status r0) r).
Proof.
  destruct id as [|k]; simpl; [discriminate|].
  intros Hr Hloc (Htot & Hb & Hl).
  unfold stats_inv, store_report, with_reports; simpl. split; [|split].
  - rewrite total_adjust, length_replace_nth. exact Htot.
  - intro s.
    pose proof (count_reports_replace (fun x => status_eqb (status x) s) k r r0 _ Hr) as Hc.
    pose proof (count_reports_ge (fun x => status_eqb (status x) (status r0)) k r0 _ Hr) as Hge.
    simpl in Hc, Hge. rewrite status_eqb_refl in Hge. rewrite <- Hb in Hge.
    pose proof (bucket_adjust (status r0) (status r) s (totalStats st) Hge) as Ha.
    rewrite Hb in Ha. simpl in Hge. lia.
  - intro L.
    pose proof (count_reports_replace (fun x => Z.eqb (locationCode x) L) k r r0 _ Hr) as Hc.
    simpl in Hc. rewrite Hloc in Hc. rewrite Hl. lia.
Qed.

Lemma stats_inv_emit (st : State) (es : list Event) :
  stats_inv st -> stats_inv (emit st es).
Proof. exact (fun H => H). Qed.

Lemma stats_inv_with_investigations (st : State) f :
  stats_inv st -> stats_inv (with_investigations st f).
Proof. exact (fun H => H). Qed.

Lemma stats_inv_with_investigators (st : State) f :
  stats_inv st -> stats_inv (with_investigators st f).
Proof. exact (fun H => H). Qed.

Lemma stats_inv_with_regulator (st : State) a :
  stats_inv st -> stats_inv (with_regulator st a).
Proof. exact (fun H => H). Qed.

Lemma stats_inv_resolved (st : State) (loc : Z) (v : LocationStats) :
  locTotalReports v = locTotalReports (locationStats st loc) ->
  stats_inv st -> stats_inv (with_locationStats st (upd_Z (locationStats st) loc v)).
Proof.
  intros Hv (Htot & Hb & Hl). split; [exact Htot|]. split; [exact Hb|].
  intro L. simpl. unfold upd_Z. destruct (Z.eqb L loc) eqn:E.
  - apply Z.eqb_eq in E. subst L. rewrite Hv. apply Hl.
  - apply Hl.
Qed.

Lemma stats_inv_submit (ctx : Ctx) (level : nat) (loc food : Z) (desc : string)
    (st st' : State) :
  stats_inv st -> submitAnonymousReport ctx level loc food desc st = Ok st' -> stats_inv st'.
Proof.
  intros (Htot & Hb & Hl). unfold submitAnonymousReport, require.
  destruct (level <=? 4); simpl; [|discriminate].
  intro H. injection H as <-.
  unfold stats_inv; simpl. split; [|split].
  - rewrite length_app, Htot. simpl. lia.
  - intro s. rewrite count_reports_app, <- Hb. simpl.
    destruct (totalStats st); destruct s; cbn; lia.
  - intro L. rewrite count_reports_app, <- Hl. simpl. unfold upd_Z, b2n.
    destruct (Z.eqb L loc) eqn:E.
    + apply Z.eqb_eq in E. subst L. rewrite Z.eqb_refl. simpl. lia.
    + rewrite Z.eqb_sym, E. lia.
Qed.

Lemma stats_inv_updateOne (ctx : Ctx) (s : ReportStatus) (st st' : State) (id : nat) :
  stats_inv st -> updateOne ctx s st id = Ok st' -> stats_inv st'.
Proof.
  intros Hinv. unfold updateOne. destruct (lookupReport st id) as [r|] eqn:Hr; [|discriminate].
  intro H. injection H as <-. apply stats_inv_emit.
  apply stats_inv_store with (r0 := r); auto.
Qed.

Lemma stats_inv_batch (ctx : Ctx) (s : ReportStatus) (ids : list nat) :
  forall st st', stats_inv st -> batch_loop ctx s ids st = Ok st' -> stats_inv st'.
Proof.
  induction ids as [|id rest IH]; intros st st' Hinv H; simpl in H.
  - injection H as <-. exact Hinv.
  - destruct (updateOne ctx s st id) as [st1|e] eqn:E; simpl in H; [|discriminate].
    apply (IH st1); [eapply stats_inv_updateOne; eauto | exact H].
Qed.

Lemma stats_inv_exec (ctx : Ctx) (c : Call) (st st' : State) :
  stats_inv st -> exec ctx c st = Ok st' -> stats_inv st'.
Proof.
  intros Hinv. destruct c as [level loc food desc | a | a | a | id s | ids s | id reason
                             | id | id level fnd]; simpl.
  - apply stats_inv_submit. exact Hinv.
  - unfold setRegulator, require. destruct (isOwner st (msgSender ctx)); simpl; [|discriminate].
    intro H; injection H as <-. apply stats_inv_with_regulator. exact Hinv.
  - unfold authorizeInvestigator, require.
    destruct (isRegulator st (msgSender ctx)); simpl; [|discriminate].
    intro H; injection H as <-. apply stats_inv_emit, stats_inv_with_investigators. exact Hinv.
  - unfold revokeInvestigator, require.
    destruct (isRegulator st (msgSender ctx)); simpl; [|discriminate].
    intro H; injection H as <-. apply stats_inv_emit, stats_inv_with_investigators. exact Hinv.
  - unfold updateReportStatus, require.
    destruct (isRegulator st (msgSender ctx)); simpl; [|discriminate].
    apply stats_inv_updateOne. exact Hinv.
  - unfold batchUpdateStatus, require.
    destruct (isRegulator st (msgSender ctx)); simpl; [|discriminate].
    apply stats_inv_batch. exact Hinv.
  - unfold emergencyCloseReport, require.
    destruct (isOwner st (msgSender ctx)); simpl; [|discriminate].
    destruct (lookupReport st id) as [r|] eqn:Hr; [|discriminate].
    intro H; injection H as <-. apply stats_inv_emit.
    apply stats_inv_store with (r0 := r); auto.
  - unfold startInvestigation, require.
    destruct (_ || _); simpl; [|discriminate].
    destruct (lookupReport st id) as [r|] eqn:Hr; [|discriminate].
    destruct (status r) eqn:Hs; try discriminate;
      intro H; injection H as <-; apply stats_inv_emit, stats_inv_with_investigations;
      rewrite <- Hs; apply stats_inv_store with (r0 := r); auto.
  - unfold completeInvestigation, require.
    destruct (_ || _); simpl; [|discriminate].
    destruct (investigations st id) as [inv|]; [|discriminate].
    destruct (isComplete inv); [discriminate|].
    destruct (lookupReport st id) as [r|] eqn:Hr; [|discriminate].
    intro H; injection H as <-. apply stats_inv_emit.
    apply (stats_inv_resolved
             (with_investigations (store_report st id (status r) _) _) (locationCode r)).
    + reflexivity.
    + apply stats_inv_with_investigations. apply stats_inv_store with (r0 := r); auto.
Qed.

Lemma stats_inv_apply (st : State) (ctx : Ctx) (c : Call) :
  stats_inv st -> stats_inv (fst (apply st ctx c)).
Proof.
  intro Hinv. unfold apply. destruct (exec ctx c st) as [st'|e] eqn:E; simpl.
  - eapply stats_inv_exec; eauto.
  - exact Hinv.
Qed.

Lemma stats_inv_run (tr : list (Ctx * Call)) :
  forall st, stats_inv st -> stats_inv (run st tr).
Proof.
  induction tr as [|[ctx c] rest IH]; intros st Hinv; simpl; auto.
  apply IH, stats_inv_apply, Hinv.
Qed.

Lemma stats_inv_init (o : address) : stats_inv (init o).
Proof. split; [reflexivity|]. split; intros []; reflexivity. Qed.

Lemma count_status_partition (l : list Report) :
  count_reports (fun r => status_eqb (status r) Submitted) l +
  count_reports (fun r => status_eqb (status r) UnderReview) l +
  count_reports (fun r => status_eqb (status r) Investigating) l +
  count_reports (fun r => status_eqb (status r) Resolved) l +
  count_reports (fun r => status_eqb (status r) Closed) l = List.length l.
Proof.
  unfold count_reports.
  induction l as [|r t IH]; [reflexivity|]. simpl.
  destruct (status r); simpl; lia.
Qed.

(** C4: in every state reachable from deployment by any sequence of
    transactions, the five status buckets of [getTotalStats] sum to its
    [total]. *)
Theorem total_stats_buckets_sum (o : address) (tr : list (Ctx * Call)) :
  let ts := getTotalStats (run (init o) tr) in
  submitted ts + underReview ts + investigating ts + resolved ts + closed ts = total ts.
Proof.
  destruct (stats_inv_run tr (init o) (stats_inv_init o)) as (Htot & Hb & _).
  simpl. unfold getTotalStats.
  rewrite Htot, <- (count_status_partition (reports (run (init o) tr))).
  rewrite <- !Hb. reflexivity.
Qed.

(** C9: in every reachable state, for every location code [L],
    [getLocationStats(L).totalReports] is the number of stored reports (each
    one the result of a successful submission) whose [locationCode] is [L];
    it is 0 for a code without reports, and codes are counted independently. *)
Theorem location_total_counts (o : address) (tr : list (Ctx * Call)) (L : Z) :
  locTotalReports (getLocationStats (run (init o) tr) L)
  = count_reports (fun r => Z.eqb (locationCode r) L) (reports (run (init o) tr)).
Proof.
  destruct (stats_inv_run tr (init o) (stats_inv_init o)) as (_ & _ & Hl).
  apply Hl.
Qed.

(** ** Status moves *)

Lemma forward_move_refl (s : ReportStatus) : forward_move s s.
Proof.
  unfold forward_move. destruct s; [right; split; [discriminate|lia] ..| left; reflexivity].
Qed.










(** The second failure of C2 needs no manual update: the investigator
    completes the investigation of an emergency-closed report, which becomes
    Resolved. *)
Example closed_report_resolved_by_completion :
  reportStatusOf closed_under_investigation 1 = Some Closed /\
  reportStatusOf (fst (apply closed_under_investigation (mkCtx inv1 20)
                         (CCompleteInvestigation 1 2 "fixed"%string))) 1 = Some Resolved.
Proof. vm_compute. split; reflexivity. Qed.


(** ** Starting an investigation *)

(** C5 fails as stated: the role check comes first, so a caller who is
    neither an authorized investigator nor the regulator gets
    AuthorizationError, not StateError, on a Closed report. *)
Lemma start_closed_by_stranger :
  reportStatusOf closed_once 1 = Some Closed /\
  apply closed_once (mkCtx 7 20) (CStartInvestigation 1) = (closed_once, Some AuthorizationError) /\
  snd (apply closed_once (mkCtx 7 20) (CStartInvestigation 1)) <> Some StateError.
Proof. vm_compute. split; [reflexivity|]. split; [reflexivity | discriminate]. Qed.

(** C5 (amended): a caller who is neither an authorized investigator nor the
    regulator gets AuthorizationError (so on a Closed report every call
    fails).  For an authorized investigator or the regulator: an unknown id
    is a ValidationError; a report Investigating, Resolved or Closed is a
    StateError; otherwise the call succeeds, creates the investigation with
    the caller as investigator, [startTime = now] and [isComplete = false],
    and forces the report to Investigating, also from Submitted. *)
Theorem start_investigation_spec (st : State) (ctx : Ctx) (id : nat) :
  ((isAuthorizedInvestigator st (msgSender ctx) || isRegulator st (msgSender ctx)) = false ->
     apply st ctx (CStartInvestigation id) = (st, Some AuthorizationError)) /\
  ((isAuthorizedInvestigator st (msgSender ctx) || isRegulator st (msgSender ctx)) = true ->
     (lookupReport st id = None ->
        apply st ctx (CStartInvestigation id) = (st, Some ValidationError)) /\
     (forall r, lookupReport st id = Some r ->
        status r = Investigating \/ status r = Resolved \/ status r = Closed ->
        apply st ctx (CStartInvestigation id) = (st, Some StateError)) /\
     (forall r, lookupReport st id = Some r ->
        status r = Submitted \/ status r = UnderReview ->
        exists st', apply st ctx (CStartInvestigation id) = (st', None) /\
          getInvestigationInfo st' id
            = Some (mkInvestigation id (msgSender ctx) (blockTimestamp ctx) 0 false 0 EmptyString) /\
          reportStatusOf st' id = Some Investigating)).
Proof.
  unfold apply, exec, startInvestigation, require. cbv zeta.
  split; intro Hauth; rewrite Hauth; simpl; [reflexivity|].
  split; [|split].
  - intro Hr. rewrite Hr. reflexivity.
  - intros r Hr Hs. rewrite Hr. destruct Hs as [-> | [-> | ->] ]; reflexivity.
  - intros r Hr Hs. rewrite Hr.
    destruct Hs as [Hs|Hs]; rewrite Hs; eexists;
      (split; [reflexivity | split;
        [ simpl; unfold upd_nat; rewrite Nat.eqb_refl; reflexivity
        | unfold reportStatusOf; rewrite lookup_emit, lookup_with_investigations;
          erewrite lookup_store_same by exact Hr; reflexivity ]]).
Qed.

Lemma start_investigation_spec_witness :
  apply submitted_with_investigator (mkCtx 7 20) (CStartInvestigation 1)
    = (submitted_with_investigator, Some AuthorizationError) /\
  apply closed_under_investigation (mkCtx inv1 20) (CStartInvestigation 1)
    = (closed_under_investigation, Some StateError) /\
  exists st', apply submitted_with_investigator (mkCtx inv1 20) (CStartInvestigation 1)
                = (st', None) /\
    getInvestigationInfo st' 1 = Some (mkInvestigation 1 inv1 20 0 false 0 EmptyString) /\
    reportStatusOf st' 1 = Some Investigating.
Proof.
  split; [|split].
  - apply (proj1 (start_investigation_spec submitted_with_investigator (mkCtx 7 20) 1)).
    reflexivity.
  - destruct (proj2 (start_investigation_spec closed_under_investigation (mkCtx inv1 20) 1)
                eq_refl) as (_ & H & _).
    eapply H; [cbv; reflexivity | right; right; reflexivity].
  - destruct (proj2 (start_investigation_spec submitted_with_investigator (mkCtx inv1 20) 1)
                eq_refl) as (_ & _ & H).
    eapply H; [cbv; reflexivity | left; reflexivity].
Defined.

(** * Further properties of the ledger *)

(** ** Reports are never rewritten *)

Lemma report_kept_refl (r : Report) : report_kept r r.
Proof. repeat split. Qed.

Lemma report_kept_trans (r1 r2 r3 : Report) :
  report_kept r1 r2 -> report_kept r2 r3 -> report_kept r1 r3.
Proof.
  intros (A1 & B1 & C1 & D1 & E1 & F1 & G1) (A2 & B2 & C2 & D2 & E2 & F2 & G2).
  repeat split; congruence.
Qed.

Lemma lookup_same_reports (st st' : State) (id : nat) :
  reports st' = reports st -> lookupReport st' id = lookupReport st id.
Proof. intro H. destruct id; simpl; [reflexivity | rewrite H; reflexivity]. Qed.

Lemma reports_kept_same (st st' : State) :
  reports st' = reports st -> reports_kept st st'.
Proof.
  intros H id r Hr. exists r. rewrite (lookup_same_reports st st' id H).
  split; [exact Hr | apply report_kept_refl].
Qed.

Lemma reports_kept_trans (st1 st2 st3 : State) :
  reports_kept st1 st2 -> reports_kept st2 st3 -> reports_kept st1 st3.
Proof.
  intros H12 H23 id r Hr. destruct (H12 id r Hr) as (r2 & Hr2 & K2).
  destruct (H23 id r2 Hr2) as (r3 & Hr3 & K3).
  exists r3. split; [exact Hr3 | eapply report_kept_trans; eauto].
Qed.

Lemma reports_kept_store (st : State) (id : nat) (old : ReportStatus) (r0 r : Report) :
  lookupReport st id = Some r0 -> report_kept r0 r ->
  reports_kept st (store_report st id old r).
Proof.
  intros H0 K id' x Hx. destruct (Nat.eq_dec id' id) as [->|Hne].
  - rewrite H0 in Hx. injection Hx as <-. exists r.
    split; [eapply lookup_store_same; exact H0 | exact K].
  - exists x. erewrite lookup_store_other by eassumption.
    split; [exact Hx | apply report_kept_refl].
Qed.

Lemma reports_kept_append (st st' : State) (x : Report) :
  reports st' = reports st ++ [x] -> reports_kept st st'.
Proof.
  intros H id r Hr. exists r. split; [|apply report_kept_refl].
  destruct id as [|k]; [discriminate|]. simpl in *. rewrite H.
  rewrite nth_error_app1 by (apply nth_error_Some; rewrite Hr; discriminate). exact Hr.
Qed.

Lemma reports_kept_batch (ctx : Ctx) (s : ReportStatus) (ids : list nat) :
  forall st st', batch_loop ctx s ids st = Ok st' ->
    reports_kept st st' /\ owner st' = owner st.
Proof.
  induction ids as [|id rest IH]; intros st st' H; simpl in H.
  - injection H as <-. split; [apply reports_kept_same; reflexivity | reflexivity].
  - unfold updateOne in H. destruct (lookupReport st id) as [r|] eqn:Hr; simpl in H;
      [|discriminate].
    destruct (IH _ _ H) as [K O]. split; [|exact O].
    eapply reports_kept_trans; [|exact K].
    apply (reports_kept_store st id (status r) r); [exact Hr | repeat split].
Qed.

Lemma reports_kept_exec (ctx : Ctx) (c : Call) (st st' : State) :
  exec ctx c st = Ok st' -> reports_kept st st' /\ owner st' = owner st.
Proof.
  destruct c as [level loc food desc | a | a | a | id s | ids s | id reason
                | id | id level fnd]; simpl.
  - unfold submitAnonymousReport, require. destruct (level <=? 4); simpl; [|discriminate].
    intro H; injection H as <-. split; [|reflexivity].
    eapply reports_kept_append. reflexivity.
  - unfold setRegulator, require. destruct (isOwner st (msgSender ctx)); simpl; [|discriminate].
    intro H; injection H as <-. split; [apply reports_kept_same|]; reflexivity.
  - unfold authorizeInvestigator, require.
    destruct (isRegulator st (msgSender ctx)); simpl; [|discriminate].
    intro H; injection H as <-. split; [apply reports_kept_same|]; reflexivity.
  - unfold revokeInvestigator, require.
    destruct (isRegulator st (msgSender ctx)); simpl; [|discriminate].
    intro H; injection H as <-. split; [apply reports_kept_same|]; reflexivity.
  - unfold updateReportStatus, require.
    destruct (isRegulator st (msgSender ctx)); simpl; [|discriminate].
    unfold updateOne. destruct (lookupReport st id) as [r|] eqn:Hr; [|discriminate].
    intro H; injection H as <-. split; [|reflexivity].
    apply (reports_kept_store st id (status r) r); [exact Hr | repeat split].
  - unfold batchUpdateStatus, require.
    destruct (isRegulator st (msgSender ctx)); simpl; [|discriminate].
    apply reports_kept_batch.
  - unfold emergencyCloseReport, require.
    destruct (isOwner st (msgSender ctx)); simpl; [|discriminate].
    destruct (lookupReport st id) as [r|] eqn:Hr; [|discriminate].
    intro H; injection H as <-. split; [|reflexivity].
    apply (reports_kept_store st id (status r) r); [exact Hr | repeat split].
  - unfold startInvestigation, require.
    destruct (_ || _); simpl; [|discriminate].
    destruct (lookupReport st id) as [r|] eqn:Hr; [|discriminate].
    destruct (status r); try discriminate;
      intro H; injection H as <-; split; try reflexivity;
      apply (reports_kept_store st id _ r); [exact Hr | repeat split | exact Hr | repeat split].
  - unfold completeInvestigation, require.
    destruct (_ || _); simpl; [|discriminate].
    destruct (investigations st id) as [inv|]; [|discriminate].
    destruct (isComplete inv); [discriminate|].
    destruct (lookupReport st id) as [r|] eqn:Hr; [|discriminate].
    intro H; injection H as <-. split; [|reflexivity].
    apply (reports_kept_store st id (status r) r); [exact Hr | repeat split].
Qed.

(** ** Completing an investigation *)











(** ** The ledger invariant *)

Lemma count_reports_replace_eq (p : Report -> bool) (n : nat) (x y : Report) (l : list Report) :
  nth_error l n = Some y -> p x = p y ->
  count_reports p (replace_nth n x l) = count_reports p l.
Proof.
  intros Hy Hp. pose proof (count_reports_replace p n x y l Hy) as H.
  rewrite Hp in H. lia.
Qed.

Lemma ledger_inv_store (st : State) (id : nat) (old : ReportStatus) (r0 r : Report) :
  lookupReport st id = Some r0 -> report_kept r0 r ->
  ledger_inv st -> ledger_inv (store_report st id old r).
Proof.
  intros H0 (Kid & Ksub & _ & Kloc & _ & _ & _) (Htot & Hids & Hrep & Hinv & Hloc).
  destruct id as [|k]; [discriminate|]. simpl in H0.
  unfold ledger_inv, store_report, with_reports; simpl. split; [|split; [|split; [|split]]].
  - rewrite length_replace_nth. exact Htot.
  - intros j x Hx. destruct (Nat.eq_dec j k) as [->|Hne].
    + rewrite (nth_replace_nth_same k r r0 _ H0) in Hx. injection Hx as <-.
      rewrite Kid. apply (Hids k r0 H0).
    + rewrite nth_replace_nth_other in Hx by congruence. apply (Hids j x Hx).
  - intro a. rewrite Hrep. symmetry. apply (count_reports_replace_eq _ k r r0 _ H0).
    rewrite Ksub. reflexivity.
  - intros id inv Hi. destruct (Hinv id inv Hi) as [Hid Hsome]. split; [exact Hid|].
    change (lookupReport (store_report st (S k) old r) id <> None).
    eapply lookup_store_some; [exact H0 | exact Hsome].
  - intros L HL. apply Hloc.
    rewrite <- (count_reports_replace_eq (fun x => Z.eqb (locationCode x) L) k r r0 _ H0).
    + exact HL.
    + rewrite Kloc. reflexivity.
Qed.

Lemma ledger_inv_batch (ctx : Ctx) (s : ReportStatus) (ids : list nat) :
  forall st st', ledger_inv st -> batch_loop ctx s ids st = Ok st' -> ledger_inv st'.
Proof.
  induction ids as [|id rest IH]; intros st st' Hinv H; simpl in H.
  - injection H as <-. exact Hinv.
  - unfold updateOne in H. destruct (lookupReport st id) as [r|] eqn:Hr; simpl in H;
      [|discriminate].
    eapply IH; [|exact H].
    exact (ledger_inv_store st id (status r) r (set_status r s (blockTimestamp ctx)) Hr
             ltac:(repeat split) Hinv).
Qed.

Lemma ledger_inv_submit (ctx : Ctx) (level : nat) (loc food : Z) (desc : string)
    (st st' : State) :
  ledger_inv st -> submitAnonymousReport ctx level loc food desc st = Ok st' -> ledger_inv st'.
Proof.
  intros (Htot & Hids & Hrep & Hinv & Hloc). unfold submitAnonymousReport, require.
  destruct (level <=? 4); simpl; [|discriminate].
  intro H. injection H as <-.
  unfold ledger_inv; simpl. split; [|split; [|split; [|split]]].
  - rewrite length_app, Htot. simpl. lia.
  - intros k x Hx. destruct (Nat.lt_ge_cases k (List.length (reports st))) as [Hlt|Hge].
    + rewrite nth_error_app1 in Hx by exact Hlt. exact (Hids k x Hx).
    + rewrite nth_error_app2 in Hx by exact Hge.
      destruct (k - List.length (reports st)) as [|j] eqn:E; simpl in Hx.
      * injection Hx as <-. simpl. lia.
      * destruct j; discriminate.
  - intro a. rewrite count_reports_app. simpl. unfold upd_addr, b2n.
    rewrite !Hrep. destruct (Nat.eqb a (msgSender ctx)) eqn:E.
    + apply Nat.eqb_eq in E. subst a. rewrite Nat.eqb_refl. lia.
    + rewrite Nat.eqb_sym, E. lia.
  - intros id inv Hi. destruct (Hinv id inv Hi) as [Hid Hsome]. split; [exact Hid|].
    destruct id as [|k]; [contradiction|]. simpl in *.
    rewrite nth_error_app1; [exact Hsome|].
    apply nth_error_Some. exact Hsome.
  - intros L HL. rewrite count_reports_app in HL. unfold upd_Z.
    destruct (Z.eqb L loc) eqn:E.
    + simpl in HL. rewrite Z.eqb_sym, E in HL. simpl in HL. lia.
    + apply Hloc. lia.
Qed.

Lemma ledger_inv_exec (ctx : Ctx) (c : Call) (st st' : State) :
  ledger_inv st -> exec ctx c st = Ok st' -> ledger_inv st'.
Proof.
  intros Hinv. destruct c as [level loc food desc | a | a | a | id s | ids s | id reason
                             | id | id level fnd]; simpl.
  - apply ledger_inv_submit. exact Hinv.
  - unfold setRegulator, require. destruct (isOwner st (msgSender ctx)); simpl; [|discriminate].
    intro H; injection H as <-. exact Hinv.
  - unfold authorizeInvestigator, require.
    destruct (isRegulator st (msgSender ctx)); simpl; [|discriminate].
    intro H; injection H as <-. exact Hinv.
  - unfold revokeInvestigator, require.
    destruct (isRegulator st (msgSender ctx)); simpl; [|discriminate].
    intro H; injection H as <-. exact Hinv.
  - unfold updateReportStatus, require.
    destruct (isRegulator st (msgSender ctx)); simpl; [|discriminate].
    unfold updateOne. destruct (lookupReport st id) as [r|] eqn:Hr; [|discriminate].
    intro H; injection H as <-.
    eapply ledger_inv_store; [exact Hr | repeat split | exact Hinv].
  - unfold batchUpdateStatus, require.
    destruct (isRegulator st (msgSender ctx)); simpl; [|discriminate].
    apply ledger_inv_batch. exact Hinv.
  - unfold emergencyCloseReport, require.
    destruct (isOwner st (msgSender ctx)); simpl; [|discriminate].
    destruct (lookupReport st id) as [r|] eqn:Hr; [|discriminate].
    intro H; injection H as <-.
    eapply ledger_inv_store; [exact Hr | repeat split | exact Hinv].
  - unfold startInvestigation, require.
    destruct (_ || _); simpl; [|discriminate].
    destruct (lookupReport st id) as [r|] eqn:Hr; [|discriminate].
    assert (Hnew : forall old, ledger_inv
              (emit (with_investigations
                       (store_report st id old (set_status r Investigating (lastUpdated r)))
                       (upd_nat (investigations st) id
                          (Some (mkInvestigation id (msgSender ctx) (blockTimestamp ctx)
                                   0 false 0 EmptyString))))
                    [InvestigationStarted id (msgSender ctx)])).
    { intro old.
      destruct (ledger_inv_store st id old r (set_status r Investigating (lastUpdated r)) Hr
                  ltac:(repeat split) Hinv) as (H1 & H2 & H3 & H4 & H5).
      split; [exact H1|]. split; [exact H2|]. split; [exact H3|]. split; [|exact H5].
      intros id' inv Hi. simpl in Hi. unfold upd_nat in Hi.
      destruct (Nat.eqb id' id) eqn:E.
      - apply Nat.eqb_eq in E. subst id'. injection Hi as <-. split; [reflexivity|].
        change (lookupReport (store_report st id old (set_status r Investigating (lastUpdated r)))
                  id <> None).
        erewrite lookup_store_same by exact Hr. discriminate.
      - destruct Hinv as (_ & _ & _ & Hinv & _). destruct (Hinv id' inv Hi) as [Hid Hs].
        split; [exact Hid|].
        change (lookupReport (store_report st id old (set_status r Investigating (lastUpdated r)))
                  id' <> None).
        eapply lookup_store_some; eauto. }
    destruct (status r); try discriminate; intro H; injection H as <-; apply Hnew.
  - unfold completeInvestigation, require.
    destruct (_ || _); simpl; [|discriminate].
    destruct (investigations st id) as [inv|] eqn:Hi0; [|discriminate].
    destruct (isComplete inv); [discriminate|].
    destruct (lookupReport st id) as [r|] eqn:Hr; [|discriminate].
    intro H; injection H as <-.
    set (r' := mkReport (reportId r) (submitter r) (safetyLevel r) (locationCode r)
                 (foodTypeCode r) (description r) Resolved (createdAt r)
                 (lastUpdated r) true (isValid r)).
    destruct (ledger_inv_store st id (status r) r r' Hr ltac:(repeat split) Hinv)
      as (H1 & H2 & H3 & H4 & H5).
    destruct Hinv as (_ & _ & _ & Hinv & _).
    split; [exact H1|]. split; [exact H2|]. split; [exact H3|]. split.
    + intros id' i Hi. simpl in Hi. unfold upd_nat in Hi.
      destruct (Nat.eqb id' id) eqn:E.
      * apply Nat.eqb_eq in E. subst id'. injection Hi as <-. simpl.
        destruct (Hinv id inv Hi0) as [Hid _]. split; [exact Hid|].
        change (lookupReport (store_report st id (status r) r') id <> None).
        erewrite lookup_store_same by exact Hr. discriminate.
      * destruct (Hinv id' i Hi) as [Hid Hs]. split; [exact Hid|].
        change (lookupReport (store_report st id (status r) r') id' <> None).
        eapply lookup_store_some; eauto.
    + intros L HL. simpl. unfold upd_Z. destruct (Z.eqb L (locationCode r)) eqn:E.
      * exfalso. apply Z.eqb_eq in E. subst L.
        destruct id as [|k]; [discriminate|]. simpl in Hr.
        pose proof (count_reports_ge (fun x => Z.eqb (locationCode x) (locationCode r)) k r'
                      _ (nth_replace_nth_same k r' r _ Hr)) as Hge.
        simpl in HL, Hge. rewrite Z.eqb_refl in Hge. simpl in Hge. lia.
      * apply H5. exact HL.
Qed.

Lemma ledger_inv_apply (st : State) (ctx : Ctx) (c : Call) :
  ledger_inv st -> ledger_inv (fst (apply st ctx c)).
Proof.
  intro Hinv. unfold apply. destruct (exec ctx c st) as [st'|e] eqn:E; simpl.
  - eapply ledger_inv_exec; eauto.
  - exact Hinv.
Qed.

Lemma ledger_inv_run (tr : list (Ctx * Call)) :
  forall st, ledger_inv st -> ledger_inv (run st tr).
Proof.
  induction tr as [|[ctx c] rest IH]; intros st Hinv; simpl; auto.
  apply IH, ledger_inv_apply, Hinv.
Qed.

Lemma ledger_inv_init (o : address) : ledger_inv (init o).
Proof.
  split; [reflexivity|]. split; [intros [|k] r H; discriminate|].
  split; [reflexivity|]. split; [intros id inv H; discriminate|].
  intros L _. reflexivity.
Qed.

Lemma ledger_inv_reachable (o : address) (tr : list (Ctx * Call)) :
  ledger_inv (run (init o) tr).
Proof. apply ledger_inv_run, ledger_inv_init. Qed.

(** ** Properties read off the tests *)

Lemma ledger_lookup_dom (st : State) (id : nat) :
  ledger_inv st -> (lookupReport st id <> None <-> 1 <= id <= totalReports st).
Proof.
  intros (Htot & _). destruct id as [|k]; simpl.
  - split; [intro H; contradiction | lia].
  - rewrite Htot, nth_error_Some. lia.
Qed.

(** Reachable ledgers have dense ids: [totalReports] is the number of stored
    reports, exactly the ids [1..totalReports] are known, and the report
    stored under id [k] carries id [k]. *)
Theorem report_ids_dense (o : address) (tr : list (Ctx * Call)) :
  totalReports (run (init o) tr) = List.length (reports (run (init o) tr)) /\
  (forall id, lookupReport (run (init o) tr) id <> None <->
              1 <= id <= totalReports (run (init o) tr)) /\
  (forall id r, lookupReport (run (init o) tr) id = Some r -> reportId r = id).
Proof.
  pose proof (ledger_inv_reachable o tr) as Hinv.
  split; [apply Hinv|]. split.
  - intro id. apply ledger_lookup_dom, Hinv.
  - destruct Hinv as (_ & Hids & _). intros [|k] r H; [discriminate|]. exact (Hids k r H).
Qed.

(** [getReporterStats(a)] is, in every reachable state, the number of stored
    reports submitted by [a] (0 for an address that never submitted). *)
Theorem reporter_stats_counts (o : address) (tr : list (Ctx * Call)) (a : address) :
  getReporterStats (run (init o) tr) a
  = count_reports (fun r => Nat.eqb (submitter r) a) (reports (run (init o) tr)).
Proof.
  destruct (ledger_inv_reachable o tr) as (_ & _ & Hrep & _). apply Hrep.
Qed.

(** In a reachable state, [getReportInfo] of an id never created (0 or past
    [totalReports]) is the empty record: status Submitted (the enum
    default), timestamp 0, not processed, not valid. *)
Theorem report_info_unknown (o : address) (tr : list (Ctx * Call)) (id : nat)
    (Hid : id = 0 \/ totalReports (run (init o) tr) < id) :
  getReportInfo (run (init o) tr) id = mkReportInfo Submitted 0 0 false false.
Proof.
  unfold getReportInfo. destruct (lookupReport (run (init o) tr) id) eqn:E; [|reflexivity].
  exfalso. assert (Hs : lookupReport (run (init o) tr) id <> None) by (rewrite E; discriminate).
  apply (ledger_lookup_dom _ id (ledger_inv_reachable o tr)) in Hs. lia.
Qed.

Lemma report_info_unknown_witness :
  getReportInfo investigation_done 999 = mkReportInfo Submitted 0 0 false false.
Proof.
  apply (report_info_unknown deployer scenario 999). right. apply Nat.ltb_lt. reflexivity.
Defined.

(** In a reachable state an investigation recorded under [id] belongs to the
    stored report [id]: its [reportId] field is [id] and that report exists. *)
Theorem investigation_belongs_to_report (o : address) (tr : list (Ctx * Call)) (id : nat)
    (inv : Investigation)
    (Hinv : getInvestigationInfo (run (init o) tr) id = Some inv) :
  invReportId inv = id /\
  exists r, lookupReport (run (init o) tr) id = Some r /\ reportId r = id.
Proof.
  destruct (ledger_inv_reachable o tr) as (_ & Hids & _ & Hbel & _).
  destruct (Hbel id inv Hinv) as [Hid Hs]. split; [exact Hid|].
  destruct (lookupReport (run (init o) tr) id) as [r|] eqn:E; [|contradiction].
  exists r. split; [reflexivity|]. destruct id as [|k]; [discriminate|]. exact (Hids k r E).
Qed.

Lemma investigation_belongs_to_report_witness :
  invReportId (mkInvestigation 1 inv1 12 0 false 0 EmptyString) = 1 /\
  exists r, lookupReport investigation_started 1 = Some r /\ reportId r = 1.
Proof.
  apply (investigation_belongs_to_report deployer (firstn 3 scenario) 1). vm_compute. reflexivity.
Defined.

(** In a reachable state, a location code whose report count
    ([getLocationStats(L).totalReports]) is 0 has all-zero statistics:
    no resolved reports, safety-level sum 0, last report time 0. *)
Theorem unseen_location_zero (o : address) (tr : list (Ctx * Call)) (L : Z)
    (H0 : locTotalReports (getLocationStats (run (init o) tr) L) = 0) :
  getLocationStats (run (init o) tr) L = emptyLocationStats.
Proof.
  destruct (stats_inv_run tr (init o) (stats_inv_init o)) as (_ & _ & Hl).
  destruct (ledger_inv_reachable o tr) as (_ & _ & _ & _ & Hz).
  apply Hz. rewrite <- Hl. exact H0.
Qed.

Lemma unseen_location_zero_witness :
  getLocationStats investigation_done 9999 = emptyLocationStats.
Proof. apply (unseen_location_zero deployer scenario 9999). vm_compute. reflexivity. Defined.

(** No transaction rewrites or deletes a stored report: after any call,
    successful or not, every report is still stored under its id with the
    same id, submitter, safety level, location, food type, description and
    creation time; and the owner never changes (it stays the deployer). *)
Theorem reports_never_rewritten :
  (forall (st : State) (ctx : Ctx) (c : Call),
     reports_kept st (fst (apply st ctx c)) /\ owner (fst (apply st ctx c)) = owner st) /\
  (forall (o : address) (tr : list (Ctx * Call)), owner (run (init o) tr) = o).
Proof.
  assert (Hstep : forall st ctx c,
            reports_kept st (fst (apply st ctx c)) /\ owner (fst (apply st ctx c)) = owner st).
  { intros st ctx c. unfold apply. destruct (exec ctx c st) as [st'|e] eqn:E; simpl.
    - exact (reports_kept_exec ctx c st st' E).
    - split; [apply reports_kept_same|]; reflexivity. }
  split; [exact Hstep|].
  intros o tr. change o with (owner (init o)) at 2. generalize (init o).
  induction tr as [|[ctx c] rest IH]; intro st; simpl; [reflexivity|].
  rewrite IH. apply (Hstep st ctx c).
Qed.

(** For the regulator, [authorizeInvestigator(a)] succeeds, makes [a]
    authorized, emits [InvestigatorAuthorized(a)] and leaves every other
    address as it was; [revokeInvestigator(a)] succeeds, makes [a]
    unauthorized, emits [InvestigatorRevoked(a)], leaves every other address
    as it was, and afterwards [a] (if not the regulator) can no longer start
    any investigation: AuthorizationError. *)
Theorem investigator_authorization_roundtrip (st : State) (ctx : Ctx) (a : address)
    (Hreg : msgSender ctx = regulator st) :
  (snd (apply st ctx (CAuthorizeInvestigator a)) = None /\
   isAuthorizedInvestigator (fst (apply st ctx (CAuthorizeInvestigator a))) a = true /\
   events (fst (apply st ctx (CAuthorizeInvestigator a))) = events st ++ [InvestigatorAuthorized a] /\
   (forall b, b <> a ->
      isAuthorizedInvestigator (fst (apply st ctx (CAuthorizeInvestigator a))) b
      = isAuthorizedInvestigator st b)) /\
  (snd (apply st ctx (CRevokeInvestigator a)) = None /\
   isAuthorizedInvestigator (fst (apply st ctx (CRevokeInvestigator a))) a = false /\
   events (fst (apply st ctx (CRevokeInvestigator a))) = events st ++ [InvestigatorRevoked a] /\
   (forall b, b <> a ->
      isAuthorizedInvestigator (fst (apply st ctx (CRevokeInvestigator a))) b
      = isAuthorizedInvestigator st b) /\
   (a <> regulator st -> forall (ctx' : Ctx) (id : nat), msgSender ctx' = a ->
      apply (fst (apply st ctx (CRevokeInvestigator a))) ctx' (CStartInvestigation id)
      = (fst (apply st ctx (CRevokeInvestigator a)), Some AuthorizationError))).
Proof.
  unfold apply, exec, authorizeInvestigator, revokeInvestigator, require.
  rewrite (isRegulator_true st _ Hreg). simpl.
  unfold isAuthorizedInvestigator, upd_addr; simpl. rewrite Nat.eqb_refl.
  split; (split; [reflexivity|]); (split; [reflexivity|]); (split; [reflexivity|]).
  - intros b Hb. apply Nat.eqb_neq in Hb. rewrite Hb. reflexivity.
  - split; [intros b Hb; apply Nat.eqb_neq in Hb; rewrite Hb; reflexivity|].
    intros Ha ctx' id Hs. unfold startInvestigation, require.
    unfold isAuthorizedInvestigator, upd_addr; simpl. rewrite Hs, Nat.eqb_refl.
    unfold isRegulator; simpl. apply Nat.eqb_neq in Ha. rewrite Ha. reflexivity.
Qed.

Lemma investigator_authorization_roundtrip_witness :
  isAuthorizedInvestigator (fst (apply (init 1) (mkCtx 1 5) (CAuthorizeInvestigator 3))) 3 = true /\
  apply (fst (apply (init 1) (mkCtx 1 5) (CRevokeInvestigator 3))) (mkCtx 3 6) (CStartInvestigation 1)
  = (fst (apply (init 1) (mkCtx 1 5) (CRevokeInvestigator 3)), Some AuthorizationError).
Proof.
  destruct (investigator_authorization_roundtrip (init 1) (mkCtx 1 5) 3 eq_refl)
    as [(_ & H1 & _) (_ & _ & _ & _ & H2)].
  split; [exact H1|]. apply H2; [discriminate | reflexivity].
Defined.

(** In a reachable state, an investigation that is not complete can always
    be completed by its assigned investigator (whatever their current
    authorization) or by the regulator: the call succeeds, emits
    [InvestigationCompleted(id, level)] and leaves the report Resolved. *)
Theorem open_investigation_completable (o : address) (tr : list (Ctx * Call)) (id : nat)
    (inv : Investigation) (ctx : Ctx) (level : nat) (fnd : string)
    (Hinv : investigations (run (init o) tr) id = Some inv)
    (Hopen : isComplete inv = false)
    (Hwho : msgSender ctx = investigator inv \/ msgSender ctx = regulator (run (init o) tr)) :
  exists st', apply (run (init o) tr) ctx (CCompleteInvestigation id level fnd) = (st', None) /\
    events st' = events (run (init o) tr) ++ [InvestigationCompleted id level] /\
    reportStatusOf st' id = Some Resolved.
Proof.
  destruct (ledger_inv_reachable o tr) as (_ & _ & _ & Hbel & _).
  destruct (Hbel id inv Hinv) as [_ Hsome].
  set (st := run (init o) tr) in *.
  destruct (lookupReport st id) as [r|] eqn:Hr; [|contradiction].
  unfold apply, exec, completeInvestigation, require. cbv zeta. rewrite Hinv.
  replace (Nat.eqb (msgSender ctx) (investigator inv) || isRegulator st (msgSender ctx))
    with true.
  2: { destruct Hwho as [H|H].
       - rewrite H, Nat.eqb_refl. reflexivity.
       - rewrite (isRegulator_true st _ H), orb_true_r. reflexivity. }
  simpl. rewrite Hopen, Hr. eexists. split; [reflexivity|]. split; [reflexivity|].
  unfold reportStatusOf. rewrite lookup_emit, lookup_with_locationStats, lookup_with_investigations.
  erewrite lookup_store_same by exact Hr. reflexivity.
Qed.

Lemma open_investigation_completable_witness :
  exists st', apply investigation_started (mkCtx deployer 20)
                (CCompleteInvestigation 1 2 "Completed by regulator"%string) = (st', None) /\
    events st' = events investigation_started ++ [InvestigationCompleted 1 2] /\
    reportStatusOf st' 1 = Some Resolved.
Proof.
  apply (open_investigation_completable deployer (firstn 3 scenario) 1
           (mkInvestigation 1 inv1 12 0 false 0 EmptyString)).
  - vm_compute. reflexivity.
  - reflexivity.
  - right. reflexivity.
Defined.

(** * The simulation script *)

Lemma map_status_replace (k : nat) (r : Report) (l : list Report) :
  map status (replace_nth k r l) = replace_nth k (status r) (map status l).
Proof. revert k; induction l as [|h t IH]; intros [|k]; simpl; f_equal; auto. Qed.

Lemma same_flow_refl (st : State) : same_flow st st.
Proof. repeat split; reflexivity. Qed.

Lemma same_flow_lookup (st1 st2 : State) (id : nat) :
  same_flow st1 st2 ->
  option_map status (lookupReport st1 id) = option_map status (lookupReport st2 id).
Proof.
  intros (_ & _ & _ & _ & Hs & _). destruct id as [|k]; simpl; [reflexivity|].
  rewrite <- !nth_error_map, Hs. reflexivity.
Qed.

Lemma same_flow_store (st1 st2 : State) (id : nat) (r1 r2 x1 x2 : Report) :
  same_flow st1 st2 -> status r1 = status r2 -> status x1 = status x2 ->
  same_flow (store_report st1 id (status r1) x1) (store_report st2 id (status r2) x2).
Proof.
  intros (Ho & Hr & Ha & Ht & Hs & Hi & Hts & Hrep) E1 E2.
  unfold store_report, with_reports. repeat split; simpl; auto.
  rewrite !map_status_replace, Hs, E2. reflexivity.
  rewrite Hts, E1, E2. reflexivity.
Qed.

Ltac flow_lookup st1 st2 id H E r1 r2 :=
  pose proof (same_flow_lookup st1 st2 id H) as E;
  destruct (lookupReport st1 id) as [r1|];
  destruct (lookupReport st2 id) as [r2|]; simpl in E; try discriminate.

Lemma same_flow_apply (st1 st2 : State) (ctx : Ctx) (c1 c2 : Call) :
  same_flow st1 st2 -> same_call c1 c2 ->
  snd (apply st1 ctx c1) = snd (apply st2 ctx c2) /\
  same_flow (fst (apply st1 ctx c1)) (fst (apply st2 ctx c2)).
Proof.
  intros Hf Hc. pose proof Hf as (Ho & Hr & Ha & Ht & Hs & Hi & Hts & Hrep).
  unfold apply, exec. destruct Hc as [a | id s | id | l1 l2 loc1 loc2 f1 f2 d1 d2 Hl1 Hl2
                                     | id l1 l2 f1 f2].
  - unfold authorizeInvestigator, require, isRegulator. rewrite Hr.
    destruct (Nat.eqb (msgSender ctx) (regulator st2)); simpl; [|split; auto].
    split; [reflexivity|]. repeat split; simpl; auto.
    intro b. unfold upd_addr. destruct (Nat.eqb b a); auto.
  - unfold updateReportStatus, updateOne, require, isRegulator. rewrite Hr.
    destruct (Nat.eqb (msgSender ctx) (regulator st2)); simpl; [|split; auto].
    flow_lookup st1 st2 id Hf E r1 r2; simpl; [|split; auto].
    split; [reflexivity|]. injection E as E.
    apply same_flow_store; auto.
  - unfold startInvestigation, require, isRegulator, isAuthorizedInvestigator. rewrite Hr, Ha.
    destruct (authorizedInvestigators st2 (msgSender ctx) || Nat.eqb (msgSender ctx) (regulator st2));
      simpl; [|split; auto].
    flow_lookup st1 st2 id Hf E r1 r2; simpl; [|split; auto].
    injection E as E. rewrite E.
    destruct (status r2) eqn:Es2; simpl; try (split; auto; fail).
    all: split; [reflexivity|].
    all: destruct (same_flow_store st1 st2 id r1 r2
                     (set_status r1 Investigating (lastUpdated r1))
                     (set_status r2 Investigating (lastUpdated r2)) Hf ltac:(congruence) eq_refl)
           as (Ho' & Hr' & Ha' & Ht' & Hs' & _ & Hts' & Hrep').
    all: rewrite ?E, ?Es2 in Hts', Hs'.
    all: repeat split; simpl; auto.
    all: intro x; unfold upd_nat; destruct (Nat.eqb x id); simpl; auto.
  - unfold submitAnonymousReport, require.
    apply Nat.leb_le in Hl1, Hl2. rewrite Hl1, Hl2. simpl.
    split; [reflexivity|]. repeat split; simpl; auto.
    + rewrite !map_app, Hs. reflexivity.
    + rewrite Hts. reflexivity.
    + intro b. unfold upd_addr. rewrite !Hrep. reflexivity.
  - unfold completeInvestigation, require, isRegulator. rewrite Hr.
    pose proof (Hi id) as Hid.
    destruct (investigations st1 id) as [i1|] eqn:Hi1;
      destruct (investigations st2 id) as [i2|] eqn:Hi2; simpl in Hid; try discriminate.
    2: { simpl. destruct (Nat.eqb (msgSender ctx) (regulator st2)); simpl; split; auto. }
    injection Hid as Hinv Hcomp. rewrite Hinv, Hcomp.
    destruct (Nat.eqb (msgSender ctx) (investigator i2) || Nat.eqb (msgSender ctx) (regulator st2));
      simpl; [|split; auto].
    destruct (isComplete i2); [split; auto|].
    flow_lookup st1 st2 id Hf E r1 r2; simpl; [|split; auto].
    injection E as E. split; [reflexivity|].
    destruct (same_flow_store st1 st2 id r1 r2
                (mkReport (reportId r1) (submitter r1) (safetyLevel r1) (locationCode r1)
                   (foodTypeCode r1) (description r1) Resolved (createdAt r1)
                   (lastUpdated r1) true (isValid r1))
                (mkReport (reportId r2) (submitter r2) (safetyLevel r2) (locationCode r2)
                   (foodTypeCode r2) (description r2) Resolved (createdAt r2)
                   (lastUpdated r2) true (isValid r2)) Hf E eq_refl)
      as (Ho' & Hr' & Ha' & Ht' & Hs' & _ & Hts' & Hrep').
    repeat split; simpl; auto.
    intro x; unfold upd_nat; destruct (Nat.eqb x id); simpl; auto.
Qed.

Lemma nth_safety_level_le (k : nat) : nth k SAFETY_LEVELS 0 <= 4.
Proof. destruct k as [|[|[|[|k]]]]; simpl; try lia. destruct k; lia. Qed.

Lemma sim_txs_same_flow (clock : nat -> nat) (txs1 txs2 : list (address * Call)) :
  Forall2 (fun t1 t2 => fst t1 = fst t2 /\ same_call (snd t1) (snd t2)) txs1 txs2 ->
  forall st1 st2 n, same_flow st1 st2 ->
    same_flow (fst (sim_txs clock st1 n txs1)) (fst (sim_txs clock st2 n txs2)) /\
    snd (sim_txs clock st1 n txs1) = snd (sim_txs clock st2 n txs2).
Proof.
  induction 1 as [|[w1 c1] [w2 c2] rest1 rest2 [Hw Hc] _ IH]; intros st1 st2 n Hf; simpl.
  - auto.
  - simpl in Hw, Hc. subst w2. apply IH.
    apply (same_flow_apply st1 st2 (mkCtx w1 (clock n)) c1 c2 Hf Hc).
Qed.

Lemma sim_submit_same_flow (clock : nat -> nat) (T : nat) (D1 : list Draw) :
  forall D2 i st1 st2 n, List.length D1 = List.length D2 -> same_flow st1 st2 ->
    same_flow (fst (fst (sim_submit clock T i D1 st1 n)))
              (fst (fst (sim_submit clock T i D2 st2 n))) /\
    snd (fst (sim_submit clock T i D1 st1 n)) = snd (fst (sim_submit clock T i D2 st2 n)) /\
    map subId (snd (sim_submit clock T i D1 st1 n))
    = map subId (snd (sim_submit clock T i D2 st2 n)).
Proof.
  induction D1 as [|d1 D1 IH]; intros [|d2 D2] i st1 st2 n Hlen Hf; simpl in Hlen;
    try discriminate; simpl; [auto|].
  match goal with
  | |- context [apply st1 ?ctx (CSubmitAnonymousReport ?l1 ?loc1 ?f1 ?ds1)] =>
    match goal with
    | |- context [apply st2 ctx (CSubmitAnonymousReport ?l2 ?loc2 ?f2 ?ds2)] =>
      pose proof (same_flow_apply st1 st2 ctx _ _ Hf
                    (same_call_submit l1 l2 loc1 loc2 f1 f2 ds1 ds2
                       (nth_safety_level_le _) (nth_safety_level_le _))) as [He Hf'];
      destruct (apply st1 ctx (CSubmitAnonymousReport l1 loc1 f1 ds1)) as [a1 e1];
      destruct (apply st2 ctx (CSubmitAnonymousReport l2 loc2 f2 ds2)) as [a2 e2]
    end
  end.
  simpl in He, Hf'. subst e2.
  destruct (IH D2 (S i) a1 a2 (S n) ltac:(lia) Hf') as (Hf2 & Hn & Hids).
  destruct (sim_submit clock T (S i) D1 a1 (S n)) as [[b1 m1] s1].
  destruct (sim_submit clock T (S i) D2 a2 (S n)) as [[b2 m2] s2].
  simpl in *. destruct e1; simpl; auto.
  split; [exact Hf2|]. split; [exact Hn|]. f_equal. exact Hids.
Qed.

Lemma map_subId_firstn (k : nat) (s1 s2 : list SubmittedReport) :
  map subId s1 = map subId s2 -> map subId (firstn k s1) = map subId (firstn k s2).
Proof.
  revert s1 s2; induction k as [|k IH]; intros [|x1 s1] [|x2 s2] H; simpl in *;
    try discriminate; auto.
  injection H as H1 H2. f_equal; auto.
Qed.

Lemma Forall2_map_combine (A : Type) (f g : nat * SubmittedReport -> A) (R : A -> A -> Prop)
    (l : list nat) (s1 s2 : list SubmittedReport) :
  map subId s1 = map subId s2 ->
  (forall i x y, subId x = subId y -> R (f (i, x)) (g (i, y))) ->
  Forall2 R (map f (combine l s1)) (map g (combine l s2)).
Proof.
  revert s1 s2; induction l as [|i l IH]; intros [|x1 s1] [|x2 s2] H Hr; simpl in *;
    try discriminate; constructor.
  - injection H as H1 _. apply Hr. exact H1.
  - injection H as _ H2. apply IH; auto.
Qed.

Lemma Forall2_map_same (A : Type) (f g : SubmittedReport -> A) (R : A -> A -> Prop)
    (s1 s2 : list SubmittedReport) :
  map subId s1 = map subId s2 ->
  (forall x y, subId x = subId y -> R (f x) (g y)) ->
  Forall2 R (map f s1) (map g s2).
Proof.
  revert s2; induction s1 as [|x1 s1 IH]; intros [|x2 s2] H Hr; simpl in *;
    try discriminate; constructor.
  - injection H as H1 _. apply Hr. exact H1.
  - injection H as _ H2. apply IH; auto.
Qed.

Lemma simulate_same_flow (clock : nat -> nat) (D1 D2 : list Draw) (st0 : State) :
  List.length D1 = List.length D2 ->
  same_flow (fst (simulate clock D1 st0)) (fst (simulate clock D2 st0)) /\
  map subId (snd (simulate clock D1 st0)) = map subId (snd (simulate clock D2 st0)).
Proof.
  intro Hlen. unfold simulate.
  destruct (sim_txs clock st0 0 _) as [st1 n1].
  destruct (sim_submit_same_flow clock (totalReports st0) D1 D2 0 st1 st1 n1 Hlen
              (same_flow_refl st1)) as (Hf2 & Hn2 & Hids).
  destruct (sim_submit clock (totalReports st0) 0 D1 st1 n1) as [[a1 m1] s1].
  destruct (sim_submit clock (totalReports st0) 0 D2 st1 n1) as [[a2 m2] s2].
  simpl in Hf2, Hn2, Hids. subst m2.
  pose proof (map_subId_firstn 5 s1 s2 Hids) as H5.
  pose proof (map_subId_firstn 3 s1 s2 Hids) as H3.
  pose proof (map_subId_firstn 2 s1 s2 Hids) as H2.
  match goal with
  | |- context [sim_txs clock a1 m1 ?l1] =>
    match goal with
    | |- context [sim_txs clock a2 m1 ?l2] =>
      assert (F : Forall2 (fun t1 t2 => fst t1 = fst t2 /\ same_call (snd t1) (snd t2)) l1 l2)
        by (apply Forall2_map_same; [exact H5 | intros x y Hxy; simpl; rewrite Hxy;
                                       split; [reflexivity | constructor]]);
      destruct (sim_txs_same_flow clock l1 l2 F a1 a2 m1 Hf2) as [Hf3 Hn3];
      destruct (sim_txs clock a1 m1 l1) as [b1 k1]; destruct (sim_txs clock a2 m1 l2) as [b2 k2]
    end
  end.
  simpl in Hf3, Hn3. subst k2. clear F.
  match goal with
  | |- context [sim_txs clock b1 k1 ?l1] =>
    match goal with
    | |- context [sim_txs clock b2 k1 ?l2] =>
      assert (F : Forall2 (fun t1 t2 => fst t1 = fst t2 /\ same_call (snd t1) (snd t2)) l1 l2)
        by (apply Forall2_map_combine; [exact H3 | intros i x y Hxy; simpl; rewrite Hxy;
                                          split; [reflexivity | constructor]]);
      destruct (sim_txs_same_flow clock l1 l2 F b1 b2 k1 Hf3) as [Hf4 Hn4];
      destruct (sim_txs clock b1 k1 l1) as [c1 j1]; destruct (sim_txs clock b2 k1 l2) as [c2 j2]
    end
  end.
  simpl in Hf4, Hn4. subst j2. clear F.
  match goal with
  | |- context [sim_txs clock c1 j1 ?l1] =>
    match goal with
    | |- context [sim_txs clock c2 j1 ?l2] =>
      assert (F : Forall2 (fun t1 t2 => fst t1 = fst t2 /\ same_call (snd t1) (snd t2)) l1 l2)
        by (apply Forall2_map_combine; [exact H2 | intros i x y Hxy; simpl; rewrite Hxy;
                                          split; [reflexivity | constructor]]);
      destruct (sim_txs_same_flow clock l1 l2 F c1 c2 j1 Hf4) as [Hf5 _];
      destruct (sim_txs clock c1 j1 l1) as [e1 i1]; destruct (sim_txs clock c2 j1 l2) as [e2 i2]
    end
  end.
  simpl. auto.
Qed.

Lemma sim_canonical_run (clock : nat -> nat) :
  totalStats (fst (simulate clock (repeat (mkDraw 0 0 0 0) 10) (init sim_deployer)))
    = mkTotalStats 10 5 2 1 2 0 /\
  map subId (snd (simulate clock (repeat (mkDraw 0 0 0 0) 10) (init sim_deployer))) = seq 1 10 /\
  map (reporterStats (fst (simulate clock (repeat (mkDraw 0 0 0 0) 10) (init sim_deployer))))
    sim_reporters = [2; 2; 2; 2; 2].
Proof. vm_compute. repeat split. Qed.

(** simulate.js on a fresh deployment: whatever the random draws and the
    block times, all ten submissions succeed with ids 1 to 10, and the
    statistics printed at the end are 10 reports, 5 Submitted, 2 UnderReview,
    1 Investigating, 2 Resolved and 0 Closed, with 2 reports for each of the
    five reporters. *)
Theorem simulate_fresh_stats (clock : nat -> nat) (D : list Draw) (Hlen : List.length D = 10) :
  getTotalStats (fst (simulate clock D (init sim_deployer))) = mkTotalStats 10 5 2 1 2 0 /\
  map subId (snd (simulate clock D (init sim_deployer))) = seq 1 10 /\
  map (getReporterStats (fst (simulate clock D (init sim_deployer)))) sim_reporters
    = [2; 2; 2; 2; 2].
Proof.
  destruct (simulate_same_flow clock D (repeat (mkDraw 0 0 0 0) 10) (init sim_deployer))
    as [Hf Hid].
  { rewrite Hlen, repeat_length. reflexivity. }
  destruct Hf as (_ & _ & _ & _ & _ & _ & Hts & Hrep).
  destruct (sim_canonical_run clock) as (C1 & C2 & C3).
  unfold getTotalStats, getReporterStats. rewrite Hts, Hid, <- C3.
  split; [exact C1 | split; [exact C2 | apply map_ext; exact Hrep]].
Qed.

Lemma simulate_fresh_stats_witness :
  List.length (repeat (mkDraw 3 4 4 9) 10) = 10 /\
  getTotalStats (fst (simulate (fun n => 100 + n) (repeat (mkDraw 3 4 4 9) 10)
                        (init sim_deployer))) = mkTotalStats 10 5 2 1 2 0.
Proof.
  split; [reflexivity|].
  apply (simulate_fresh_stats (fun n => 100 + n) (repeat (mkDraw 3 4 4 9) 10) eq_refl).
Defined.

Lemma reports_kept_apply_step (st : State) (ctx : Ctx) (c : Call) :
  reports_kept st (fst (apply st ctx c)).
Proof.
  unfold apply. destruct (exec ctx c st) as [st'|e] eqn:E; simpl.
  - exact (proj1 (reports_kept_exec ctx c st st' E)).
  - apply reports_kept_same. reflexivity.
Qed.

Lemma sim_txs_kept (clock : nat -> nat) (txs : list (address * Call)) :
  forall st n, ledger_inv st ->
  ledger_inv (fst (sim_txs clock st n txs)) /\ reports_kept st (fst (sim_txs clock st n txs)).
Proof.
  induction txs as [|[who c] rest IH]; intros st n H; simpl.
  - split; [exact H | apply reports_kept_same; reflexivity].
  - destruct (IH (fst (apply st (mkCtx who (clock n)) c)) (S n)
                 (ledger_inv_apply st _ c H)) as [H1 H2].
    split; [exact H1 | eapply reports_kept_trans; [apply reports_kept_apply_step | exact H2]].
Qed.

Lemma sim_txs_authorize_reports (clock : nat -> nat) (l : list address) :
  forall st n,
  reports (fst (sim_txs clock st n (map (fun a => (sim_deployer, CAuthorizeInvestigator a)) l)))
    = reports st /\
  totalReports (fst (sim_txs clock st n (map (fun a => (sim_deployer, CAuthorizeInvestigator a)) l)))
    = totalReports st.
Proof.
  induction l as [|a l IH]; intros st n; simpl; [auto|].
  destruct (IH (fst (apply st (mkCtx sim_deployer (clock n)) (CAuthorizeInvestigator a))) (S n))
    as [H1 H2].
  rewrite H1, H2. unfold apply. simpl. unfold authorizeInvestigator, require.
  destruct (isRegulator _ _); simpl; auto.
Qed.

Lemma submit_apply_ok (st : State) (ctx : Ctx) (level : nat) (loc food : Z) (desc : string) :
  level <= 4 -> ledger_inv st ->
  exists st1, apply st ctx (CSubmitAnonymousReport level loc food desc) = (st1, None) /\
    ledger_inv st1 /\ totalReports st1 = S (totalReports st) /\ reports_kept st st1 /\
    (forall id, id <= totalReports st -> lookupReport st1 id = lookupReport st id) /\
    exists r, lookupReport st1 (S (totalReports st)) = Some r /\
      submitter r = msgSender ctx /\ safetyLevel r = level /\ locationCode r = loc /\
      status r = Submitted.
Proof.
  intros Hl Hinv.
  destruct (submitAnonymousReport ctx level loc food desc st) as [st1|e] eqn:E.
  2:{ unfold submitAnonymousReport, require in E. apply Nat.leb_le in Hl. rewrite Hl in E.
      discriminate. }
  exists st1. unfold apply. simpl exec. rewrite E. split; [reflexivity|].
  split; [exact (ledger_inv_submit ctx level loc food desc st st1 Hinv E)|].
  unfold submitAnonymousReport, require in E. apply Nat.leb_le in Hl. rewrite Hl in E.
  simpl in E. injection E as <-. simpl.
  split; [reflexivity|]. split; [eapply reports_kept_append; reflexivity|].
  destruct Hinv as (Htot & _).
  split.
  { intros [|k] Hk; [reflexivity|]. simpl. apply nth_error_app1. lia. }
  eexists. split; [rewrite Htot, nth_error_app2, Nat.sub_diag by lia; reflexivity
                  | repeat split].
Qed.


Lemma sub_recorded_kept (st st' : State) (s : SubmittedReport) :
  reports_kept st st' -> sub_recorded st s -> sub_recorded st' s.
Proof.
  intros K (r & Hr & Hs & Hl). destruct (K _ _ Hr) as (r' & Hr' & (_ & Hs' & Hl' & _)).
  exists r'. split; [exact Hr'|]. split; congruence.
Qed.

Lemma sim_submit_spec (clock : nat -> nat) (T : nat) (D : list Draw) :
  forall i st n, ledger_inv st -> totalReports st = T + i ->
  ledger_inv (fst (fst (sim_submit clock T i D st n))) /\
  reports_kept st (fst (fst (sim_submit clock T i D st n))) /\
  map subId (snd (sim_submit clock T i D st n)) = map (fun j => T + j + 1) (seq i (List.length D)) /\
  Forall (sub_recorded (fst (fst (sim_submit clock T i D st n)))) (snd (sim_submit clock T i D st n)).
Proof.
  induction D as [|d rest IH]; intros i st n Hinv Ht; cbn [sim_submit].
  - simpl. split; [exact Hinv | split; [apply reports_kept_same; reflexivity | auto]].
  - destruct (submit_apply_ok st (mkCtx (nth (i mod 5) sim_reporters 0) (clock n))
                (nth (levelIdx d) SAFETY_LEVELS 0) (nth (locIdx d) LOCATIONS 0%Z)
                (nth (foodIdx d) FOOD_TYPES 0%Z) (nth (descIdx d) REPORT_DESCRIPTIONS EmptyString)
                (nth_safety_level_le _) Hinv)
      as (st1 & Ea & L1 & T1 & K1 & _ & r & Hr & Hs & Hl & _ & _).
    rewrite Ea. cbn iota beta.
    destruct (IH (S i) st1 (S n) L1 ltac:(lia)) as (L2 & K2 & Hids & Hall).
    destruct (sim_submit clock T (S i) rest st1 (S n)) as [[st2 n2] subs].
    simpl in *. split; [exact L2|]. split; [eapply reports_kept_trans; eassumption|]. split.
    + f_equal. exact Hids.
    + constructor; [|exact Hall].
      apply (sub_recorded_kept st1 st2); [exact K2|].
      exists r. cbn [subId subReporter subLevel].
      replace (T + i + 1) with (S (totalReports st)) by lia.
      simpl. split; [exact Hr | split; assumption].
Qed.

(** simulate.js on any deployed contract: the id it records for its i-th
    submission, [initialTotal + i + 1], is the id the contract assigned (no
    submission reverts), and after all later steps the contract still stores
    under that id a report by the recorded reporter with the recorded safety
    level. *)
Theorem simulate_records_assigned_ids (o : address) (tr : list (Ctx * Call))
    (clock : nat -> nat) (D : list Draw) :
  map subId (snd (simulate clock D (run (init o) tr)))
    = map (fun j => totalReports (run (init o) tr) + j + 1) (seq 0 (List.length D)) /\
  Forall (sub_recorded (fst (simulate clock D (run (init o) tr))))
    (snd (simulate clock D (run (init o) tr))).
Proof.
  pose proof (ledger_inv_reachable o tr) as H0.
  revert H0. generalize (run (init o) tr) as st0. intros st0 H0'.
  unfold simulate.
  match goal with
  | |- context [sim_txs clock st0 0 ?l] =>
    destruct (sim_txs_authorize_reports clock sim_investigators st0 0) as [_ Ht1];
    destruct (sim_txs_kept clock l st0 0 H0') as [L1 _];
    destruct (sim_txs clock st0 0 l) as [st1 n1]
  end.
  simpl in Ht1, L1.
  destruct (sim_submit_spec clock (totalReports st0) D 0 st1 n1 L1 ltac:(lia))
    as (L2 & _ & Hids & Hall).
  destruct (sim_submit clock (totalReports st0) 0 D st1 n1) as [[st2 n2] subs].
  simpl in L2, Hids, Hall.
  match goal with
  | |- context [sim_txs clock st2 n2 ?l] =>
    destruct (sim_txs_kept clock l st2 n2 L2) as [L3 K3];
    destruct (sim_txs clock st2 n2 l) as [st3 n3]
  end.
  simpl in L3, K3.
  match goal with
  | |- context [sim_txs clock st3 n3 ?l] =>
    destruct (sim_txs_kept clock l st3 n3 L3) as [L4 K4];
    destruct (sim_txs clock st3 n3 l) as [st4 n4]
  end.
  simpl in L4, K4.
  match goal with
  | |- context [sim_txs clock st4 n4 ?l] =>
    destruct (sim_txs_kept clock l st4 n4 L4) as [_ K5];
    destruct (sim_txs clock st4 n4 l) as [st5 n5]
  end.
  simpl in K5. simpl. split; [exact Hids|].
  eapply Forall_impl; [|exact Hall].
  intros s Hs. apply (sub_recorded_kept st2 st5); [|exact Hs].
  eapply reports_kept_trans; [exact K3|]. eapply reports_kept_trans; [exact K4|exact K5].
Qed.

(** * The interaction script *)

Lemma no_reports_fresh (st : State) :
  ledger_inv st -> stats_inv st -> totalReports st = 0 ->
  reports st = [] /\ totalStats st = emptyTotalStats /\
  (forall L, locationStats st L = emptyLocationStats) /\ (forall a, reporterStats st a = 0).
Proof.
  intros (Ht & _ & Hrep & _ & Hloc) (Htot & Hb & _) H0.
  assert (Hr : reports st = []) by (destruct (reports st); [reflexivity | simpl in Ht; lia]).
  split; [exact Hr|]. split; [|split].
  - pose proof (Hb Submitted) as B1. pose proof (Hb UnderReview) as B2.
    pose proof (Hb Investigating) as B3. pose proof (Hb Resolved) as B4.
    pose proof (Hb Closed) as B5. rewrite Hr in Htot, B1, B2, B3, B4, B5.
    destruct (totalStats st); unfold count_reports in *; simpl in *. subst. reflexivity.
  - intro L. apply Hloc. rewrite Hr. reflexivity.
  - intro a. rewrite Hrep, Hr. reflexivity.
Qed.

(** The interaction script on a contract whose regulator is the script's
    deployer account and that holds no report yet: none of its six
    transactions reverts; report 1 ends Resolved and report 2 Submitted; the
    statistics read back are 2 reports, 1 Submitted and 1 Resolved; the
    investigation of report 1 is by investigator1, complete, with final level
    3; location 1001 has 1 report, 1 resolved, level sum 3; reporter1 has 1
    report. *)
Theorem interact_all_succeed (o : address) (tr : list (Ctx * Call)) (clock : nat -> nat)
    (Hreg : regulator (run (init o) tr) = int_deployer)
    (Hnone : totalReports (run (init o) tr) = 0) :
  snd (interact clock (run (init o) tr)) = [None; None; None; None; None; None] /\
  getTotalStats (fst (interact clock (run (init o) tr))) = mkTotalStats 2 1 0 0 1 0 /\
  reportStatusOf (fst (interact clock (run (init o) tr))) 1 = Some Resolved /\
  reportStatusOf (fst (interact clock (run (init o) tr))) 2 = Some Submitted /\
  getInvestigationInfo (fst (interact clock (run (init o) tr))) 1
    = Some (mkInvestigation 1 int_investigator1 (clock 4) (clock 5) true 3 int_findings) /\
  getLocationStats (fst (interact clock (run (init o) tr))) 1001%Z
    = mkLocationStats 1 1 3 (clock 1) /\
  getReporterStats (fst (interact clock (run (init o) tr))) int_reporter1 = 1.
Proof.
  destruct (no_reports_fresh (run (init o) tr) (ledger_inv_reachable o tr)
              (stats_inv_run tr (init o) (stats_inv_init o)) Hnone) as (Hr & Hts & Hls & Hrs).
  destruct (run (init o) tr) as [ow rg ai tot rs invs ts ls rps evs].
  simpl in *. subst.
  unfold interact, apply. simpl. rewrite Hls, Hrs.
  repeat split; reflexivity.
Qed.

Lemma interact_all_succeed_witness :
  regulator (run (init int_deployer) []) = int_deployer /\
  totalReports (run (init int_deployer) []) = 0 /\
  snd (interact (fun n => n) (run (init int_deployer) [])) = [None; None; None; None; None; None].
Proof.
  split; [reflexivity | split; [reflexivity|]].
  exact (proj1 (interact_all_succeed int_deployer [] (fun n => n) eq_refl eq_refl)).
Defined.

Lemma apply_keeps_other_report (st : State) (ctx : Ctx) (c : Call) (id id' : nat) :
  (exists s, c = CUpdateReportStatus id s) \/ c = CStartInvestigation id \/
  (exists l f, c = CCompleteInvestigation id l f) ->
  id' <> id -> lookupReport (fst (apply st ctx c)) id' = lookupReport st id'.
Proof.
  intros Hc Hne. unfold apply. destruct (exec ctx c st) as [st'|e] eqn:E; simpl; [|reflexivity].
  destruct Hc as [[s ->]|[->|(l & f & ->)]]; unfold exec in E.
  - unfold updateReportStatus, updateOne, bind, require in E.
    destruct (isRegulator st (msgSender ctx)); [|discriminate].
    destruct (lookupReport st id) as [r|] eqn:L; [|discriminate].
    injection E as <-. rewrite lookup_emit. eapply lookup_store_other; eassumption.
  - unfold startInvestigation, bind, require in E.
    destruct (_ || _); [|discriminate].
    destruct (lookupReport st id) as [r|] eqn:L; [|discriminate].
    destruct (status r); try discriminate; injection E as <-;
      rewrite lookup_emit, lookup_with_investigations; eapply lookup_store_other; eassumption.
  - unfold completeInvestigation, bind, require in E.
    destruct (_ || _); [|discriminate].
    destruct (investigations st id) as [inv|]; [|discriminate].
    destruct (isComplete inv); [discriminate|].
    destruct (lookupReport st id) as [r|] eqn:L; [|discriminate].
    injection E as <-.
    rewrite lookup_emit, lookup_with_locationStats, lookup_with_investigations.
    eapply lookup_store_other; eassumption.
Qed.

Lemma apply_authorize_reports (st : State) (ctx : Ctx) (a : address) :
  reports (fst (apply st ctx (CAuthorizeInvestigator a))) = reports st /\
  totalReports (fst (apply st ctx (CAuthorizeInvestigator a))) = totalReports st.
Proof.
  unfold apply, exec, authorizeInvestigator, bind, require.
  destruct (isRegulator _ _); simpl; auto.
Qed.

Lemma interact_submissions (clock : nat -> nat) (st0 : State) :
  ledger_inv st0 ->
  exists st3 r1 r2,
    skipn 1 (firstn 3 (snd (interact clock st0))) = [None; None] /\
    reports_kept st3 (fst (interact clock st0)) /\
    (forall id', id' <> 1 -> lookupReport (fst (interact clock st0)) id' = lookupReport st3 id') /\
    lookupReport st3 (S (totalReports st0)) = Some r1 /\ submitter r1 = int_reporter1 /\
    safetyLevel r1 = 3 /\ locationCode r1 = 1001%Z /\ status r1 = Submitted /\
    lookupReport st3 (S (S (totalReports st0))) = Some r2 /\ submitter r2 = int_reporter2 /\
    safetyLevel r2 = 4 /\ locationCode r2 = 1002%Z /\ status r2 = Submitted.
Proof.
  intro L0. unfold interact, int_report1, int_report2.
  pose proof (apply_authorize_reports st0 (mkCtx int_deployer (clock 0)) int_investigator1)
    as [_ T1].
  pose proof (ledger_inv_apply st0 (mkCtx int_deployer (clock 0))
                (CAuthorizeInvestigator int_investigator1) L0) as L1.
  destruct (apply st0 _ (CAuthorizeInvestigator int_investigator1)) as [st1 e1].
  simpl in T1, L1.
  destruct (submit_apply_ok st1 (mkCtx int_reporter1 (clock 1)) 3 1001 5001
              "Expired ingredients found in storage area" ltac:(lia) L1)
    as (st2 & E2 & L2 & T2 & K2 & P2 & r1 & Hr1 & S1 & V1 & C1 & St1).
  rewrite E2. cbn iota beta.
  destruct (submit_apply_ok st2 (mkCtx int_reporter2 (clock 2)) 4 1002 5002
              "Severe contamination detected in processing facility" ltac:(lia) L2)
    as (st3 & E3 & L3 & T3 & K3 & P3 & r2 & Hr2 & S2 & V2 & C2 & St2).
  rewrite E3. cbn iota beta.
  rewrite <- (P3 (S (totalReports st1)) ltac:(lia)) in Hr1.
  set (c4 := mkCtx int_deployer (clock 3)). set (c5 := mkCtx int_investigator1 (clock 4)).
  set (c6 := mkCtx int_investigator1 (clock 5)).
  pose proof (reports_kept_apply_step st3 c4 (CUpdateReportStatus 1 UnderReview)) as K4.
  pose proof (fun id' => apply_keeps_other_report st3 c4 (CUpdateReportStatus 1 UnderReview) 1 id'
                (or_introl (ex_intro _ UnderReview eq_refl))) as O4.
  destruct (apply st3 c4 _) as [st4 e4]. simpl in K4, O4.
  pose proof (reports_kept_apply_step st4 c5 (CStartInvestigation 1)) as K5.
  pose proof (fun id' => apply_keeps_other_report st4 c5 (CStartInvestigation 1) 1 id'
                (or_intror (or_introl eq_refl))) as O5.
  destruct (apply st4 c5 _) as [st5 e5]. simpl in K5, O5.
  pose proof (reports_kept_apply_step st5 c6 (CCompleteInvestigation 1 3 int_findings)) as K6.
  pose proof (fun id' => apply_keeps_other_report st5 c6 (CCompleteInvestigation 1 3 int_findings)
                1 id' (or_intror (or_intror (ex_intro _ 3 (ex_intro _ int_findings eq_refl))))) as O6.
  destruct (apply st5 c6 _) as [st6 e6]. simpl in K6, O6.
  exists st3, r1, r2. simpl. split; [reflexivity|]. split.
  { eapply reports_kept_trans; [exact K4|]. eapply reports_kept_trans; [exact K5|exact K6]. }
  split.
  { intros id' Hne. rewrite (O6 id' Hne), (O5 id' Hne), (O4 id' Hne). reflexivity. }
  rewrite <- T1. rewrite T2 in Hr2. auto 20.
Qed.

(** The interaction script on any deployed contract: its two report
    submissions never revert, and the contract ends holding reporter1's level-3
    report for location 1001 under id [totalReports + 1] and reporter2's
    level-4 report for location 1002 under id [totalReports + 2]. *)
Theorem interact_reports_placed (o : address) (tr : list (Ctx * Call)) (clock : nat -> nat) :
  skipn 1 (firstn 3 (snd (interact clock (run (init o) tr)))) = [None; None] /\
  (exists r, lookupReport (fst (interact clock (run (init o) tr)))
               (S (totalReports (run (init o) tr))) = Some r /\
             submitter r = int_reporter1 /\ safetyLevel r = 3 /\ locationCode r = 1001%Z) /\
  (exists r, lookupReport (fst (interact clock (run (init o) tr)))
               (S (S (totalReports (run (init o) tr)))) = Some r /\
             submitter r = int_reporter2 /\ safetyLevel r = 4 /\ locationCode r = 1002%Z).
Proof.
  destruct (interact_submissions clock (run (init o) tr) (ledger_inv_reachable o tr))
    as (st3 & r1 & r2 & Hout & K & _ & H1 & S1 & V1 & C1 & _ & H2 & S2 & V2 & C2 & _).
  split; [exact Hout|]. split.
  - destruct (K _ _ H1) as (r & Hr & (_ & Sr & Vr & Cr & _)).
    exists r. repeat split; congruence.
  - destruct (K _ _ H2) as (r & Hr & (_ & Sr & Vr & Cr & _)).
    exists r. repeat split; congruence.
Qed.

(** Steps 4 to 6 of the interaction script always act on report 1: on a
    contract that already held reports, the script's own two reports are left
    Submitted. *)
Theorem interact_own_reports_untouched (o : address) (tr : list (Ctx * Call))
    (clock : nat -> nat) (Hsome : 0 < totalReports (run (init o) tr)) :
  reportStatusOf (fst (interact clock (run (init o) tr))) (S (totalReports (run (init o) tr)))
    = Some Submitted /\
  reportStatusOf (fst (interact clock (run (init o) tr))) (S (S (totalReports (run (init o) tr))))
    = Some Submitted.
Proof.
  destruct (interact_submissions clock (run (init o) tr) (ledger_inv_reachable o tr))
    as (st3 & r1 & r2 & _ & _ & O & H1 & _ & _ & _ & St1 & H2 & _ & _ & _ & St2).
  unfold reportStatusOf. rewrite !O by lia. rewrite H1, H2. simpl. rewrite St1, St2.
  split; reflexivity.
Qed.

Lemma interact_own_reports_untouched_witness :
  0 < totalReports (run (init int_deployer)
                      [(mkCtx 9 1, CSubmitAnonymousReport 1 1003 5003 "Mould on bread"%string)]) /\
  reportStatusOf (fst (interact (fun n => 10 + n)
                        (run (init int_deployer)
                           [(mkCtx 9 1, CSubmitAnonymousReport 1 1003 5003 "Mould on bread"%string)])))
    2 = Some Submitted.
Proof.
  split; [vm_compute; lia|].
  exact (proj1 (interact_own_reports_untouched int_deployer
                  [(mkCtx 9 1, CSubmitAnonymousReport 1 1003 5003 "Mould on bread"%string)]
                  (fun n => 10 + n) ltac:(vm_compute; lia))).
Defined.

(** * The dependency checker *)

Lemma gt0_or0 (x : option nat) : gt0 x = (0 <? or0 x).
Proof. destruct x; reflexivity. Qed.

Lemma npm_audit_classify (v : Vulnerabilities) :
  (npm_audit_step (AuditJson (Some (Some v))) = AuditExit1 <->
     0 < or0 (vCritical v) \/ 0 < or0 (vHigh v)) /\
  (npm_audit_step (AuditJson (Some (Some v))) = AuditWarned <->
     or0 (vCritical v) = 0 /\ or0 (vHigh v) = 0 /\ 0 < or0 (vModerate v)) /\
  (npm_audit_step (AuditJson (Some (Some v))) = AuditClean <->
     or0 (vCritical v) = 0 /\ or0 (vHigh v) = 0 /\ or0 (vModerate v) = 0).
Proof.
  simpl. rewrite !gt0_or0.
  destruct (or0 (vCritical v)) as [|c], (or0 (vHigh v)) as [|h], (or0 (vModerate v)) as [|m];
    simpl; repeat split; intros; try discriminate; try lia; try reflexivity;
    try (destruct H; lia); try (destruct H as (? & ? & ?); lia).
Qed.

(** The dependency check exits with status 1 from its audit step exactly when
    the audit report parsed and counts a critical or a high vulnerability; a
    failing [npm audit] command, a report without metadata and moderate, low
    or info counts never make it fail. *)
Theorem npm_audit_exit_only_critical_high (a : AuditInput) :
  npm_audit_step a = AuditExit1 <->
  exists v, a = AuditJson (Some (Some v)) /\ (0 < or0 (vCritical v) \/ 0 < or0 (vHigh v)).
Proof.
  split.
  - destruct a as [|[[v|]|]]; simpl; try discriminate.
    intro H. exists v. split; [reflexivity|]. apply (proj1 (npm_audit_classify v)). exact H.
  - intros (v & -> & H). apply (proj1 (npm_audit_classify v)). exact H.
Qed.

(** With a parsed vulnerability summary, the audit step only warns exactly
    when there is no critical or high vulnerability but some moderate one, and
    reports no vulnerability exactly when the critical, high and moderate
    counters are all zero or absent (low and info are not counted). *)
Theorem npm_audit_moderate_only_warns (v : Vulnerabilities) :
  (npm_audit_step (AuditJson (Some (Some v))) = AuditWarned <->
     or0 (vCritical v) = 0 /\ or0 (vHigh v) = 0 /\ 0 < or0 (vModerate v)) /\
  (npm_audit_step (AuditJson (Some (Some v))) = AuditClean <->
     or0 (vCritical v) = 0 /\ or0 (vHigh v) = 0 /\ or0 (vModerate v) = 0).
Proof. exact (proj2 (npm_audit_classify v)). Qed.

Lemma In_insert_by_index (e x : string * JVal) (l : list (string * JVal)) :
  In x (insert_by_index e l) <-> e = x \/ In x l.
Proof.
  induction l as [|h t IH]; simpl; [tauto|].
  destruct (index_value (fst e)), (index_value (fst h)); try destruct (_ <? _)%N;
    simpl; rewrite ?IH; tauto.
Qed.

Lemma In_sort_by_index (x : string * JVal) (l : list (string * JVal)) :
  In x (sort_by_index l) <-> In x l.
Proof.
  induction l as [|h t IH]; simpl; [tauto|]. rewrite In_insert_by_index, IH. tauto.
Qed.

Lemma In_object_entries_obj (x : string * JVal) (l : list (string * JVal)) :
  In x (object_entries (JObj l)) <-> In x l.
Proof.
  simpl. rewrite in_app_iff, In_sort_by_index, !filter_In.
  destruct (is_index_key (fst x)); simpl; intuition discriminate.
Qed.

Lemma is_wildcard_iff (v : JVal) : is_wildcard v = true <-> v = JStr "*" \/ v = JStr "latest".
Proof.
  destruct v; simpl; try (split; [discriminate | intros [H|H]; discriminate]).
  rewrite orb_true_iff, !String.eqb_eq. split; intros [H|H]; subst; auto;
    injection H; auto.
Qed.

(** When package.json has a [dependencies] object, a dependency [k] is
    reported as using a wildcard version exactly when its version is the
    string "*" or "latest"; ranges such as "^1.0.0", ">=0" or "x" are never
    flagged. *)
Theorem wildcard_flagged_iff (pj : JVal) (l : list (string * JVal)) (k : string)
    (Hdeps : field (Some pj) "dependencies" = Some (JObj l)) :
  exists iss, package_issues pj = Some iss /\
    (In (WildcardVersion "Dependency" k) iss <-> In (k, JStr "*") l \/ In (k, JStr "latest") l).
Proof.
  destruct pj as [| | | | |pl]; try discriminate.
  eexists. split; [reflexivity|].
  simpl package_issues. cbv zeta. rewrite Hdeps.
  rewrite !in_app_iff. unfold checkWildcards at 1. simpl truthy. cbv iota.
  rewrite in_map_iff.
  split.
  - intros [H|[H|[(e & He & Hin)|H]]].
    + destruct (_ || _); simpl in H; [destruct H as [H|[]]; discriminate | contradiction].
    + destruct (negb _); simpl in H; [destruct H as [H|[]]; discriminate | contradiction].
    + injection He as <-. apply filter_In in Hin as [Hin Hw].
      apply (proj1 (In_object_entries_obj e l)) in Hin. apply is_wildcard_iff in Hw.
      destruct e as [k' v]; cbn [fst snd] in *. destruct Hw as [->| ->]; auto.
    + unfold checkWildcards in H. destruct (field _ "devDependencies"); [|contradiction].
      destruct (truthy _); [|contradiction]. apply in_map_iff in H as (e & He & _).
      discriminate.
  - intro H. right. right. left.
    assert (Hw : exists v, In (k, v) l /\ is_wildcard v = true).
    { destruct H as [H|H]; eexists; split; try exact H; reflexivity. }
    destruct Hw as (v & Hin & Hw). exists (k, v). split; [reflexivity|].
    apply filter_In. split; [apply (proj2 (In_object_entries_obj (k, v) l)); exact Hin | exact Hw].
Qed.

Lemma wildcard_flagged_iff_witness :
  field (Some (JObj [("dependencies"%string, JObj [("hardhat"%string, JStr "latest"%string)])]))
    "dependencies" = Some (JObj [("hardhat"%string, JStr "latest"%string)]) /\
  exists iss, package_issues (JObj [("dependencies"%string, JObj [("hardhat"%string, JStr "latest"%string)])]) = Some iss /\
    (In (WildcardVersion "Dependency" "hardhat") iss <->
       In ("hardhat"%string, JStr "*") [("hardhat"%string, JStr "latest"%string)] \/
       In ("hardhat"%string, JStr "latest") [("hardhat"%string, JStr "latest"%string)]).
Proof.
  split; [reflexivity|].
  exact (wildcard_flagged_iff
           (JObj [("dependencies"%string, JObj [("hardhat"%string, JStr "latest"%string)])])
           [("hardhat"%string, JStr "latest"%string)] "hardhat" eq_refl).
Defined.

Lemma prefix_iff (p s : string) : String.prefix p s = true <-> exists b, s = (p ++ b)%string.
Proof.
  revert s; induction p as [|c p IH]; intros [|c' s]; simpl.
  - split; [intros _; exists EmptyString; reflexivity | reflexivity].
  - split; [intros _; eexists; reflexivity | reflexivity].
  - split; [discriminate | intros (b & H); discriminate].
  - destruct (ascii_dec c c') as [->|Hne].
    + rewrite IH. split; intros (b & Hb); exists b; [rewrite Hb; reflexivity | injection Hb; auto].
    + split; [discriminate | intros (b & Hb); injection Hb; intros; congruence].
Qed.

Lemma includes_iff (s p : string) :
  includes s p = true <-> exists a b, s = (a ++ p ++ b)%string.
Proof.
  induction s as [|c s IH]; cbn [includes]; rewrite orb_true_iff, prefix_iff.
  - split.
    + intros [(b & Hb)|H]; [exists EmptyString, b; exact Hb | discriminate].
    + intros (a & b & H). left. exists b. destruct a; [exact H | discriminate].
  - rewrite IH. split.
    + intros [(b & Hb)|(a & b & Hab)].
      * exists EmptyString, b. exact Hb.
      * exists (String c a), b. rewrite Hab. reflexivity.
    + intros ([|c' a] & b & H).
      * left. exists b. exact H.
      * right. exists a, b. injection H; auto.
Qed.

(** The .gitignore check reports no missing pattern exactly when each
    sensitive pattern occurs somewhere in the file's text, as a substring of
    any line (a comment or a negated entry such as [!.env] counts). *)
Theorem gitignore_configured_iff (g : string) :
  missingPatterns g = [] <->
  forall p, In p sensitivePatterns -> exists a b, g = (a ++ p ++ b)%string.
Proof.
  unfold missingPatterns. split.
  - intros H p Hp. apply includes_iff.
    destruct (includes g p) eqn:E; [reflexivity|].
    assert (Hin : In p (filter (fun p => negb (includes g p)) sensitivePatterns))
      by (apply filter_In; rewrite E; auto).
    rewrite H in Hin. contradiction.
  - intro H.
    assert (Hinc : forall p, In p sensitivePatterns -> includes g p = true)
      by (intros p Hp; apply includes_iff; auto).
    unfold sensitivePatterns in *. simpl.
    rewrite !Hinc by (simpl; tauto). reflexivity.
Qed.

Lemma string_append_assoc (x y z : string) : ((x ++ y) ++ z)%string = (x ++ y ++ z)%string.
Proof. induction x as [|c x IH]; simpl; [reflexivity | rewrite IH; reflexivity]. Qed.

(** Adding text before or after a .gitignore never makes the check report a
    pattern that it did not report before. *)
Theorem gitignore_missing_shrinks (a g b : string) :
  incl (missingPatterns (a ++ g ++ b)) (missingPatterns g).
Proof.
  intros p Hp. unfold missingPatterns in *. apply filter_In in Hp as [Hin Hn].
  apply filter_In. split; [exact Hin|].
  destruct (includes g p) eqn:E; [|reflexivity].
  apply includes_iff in E as (x & y & ->).
  assert (Hi : includes (a ++ (x ++ p ++ y) ++ b) p = true).
  { apply includes_iff. exists (a ++ x)%string, (y ++ b)%string.
    rewrite !string_append_assoc. reflexivity. }
  rewrite Hi in Hn. discriminate.
Qed.

(** [Object.entries] puts array-index keys first, in numeric order. *)
Example object_entries_order : object_entries (JObj [("b"%string, JNum 1); ("10"%string, JNum 2); ("2"%string, JNum 3); ("01"%string, JNum 4)])
  = [("2"%string, JNum 3); ("10"%string, JNum 2); ("b"%string, JNum 1); ("01"%string, JNum 4)].
Proof. vm_compute. reflexivity. Qed.
(** A [dependencies] string is walked character by character: ["*"] is
    flagged under the key "0". *)
Example string_dependencies_flagged : package_issues (JObj [("dependencies"%string, JStr "*"%string)]) =
  Some [MissingEngine; MissingRepository; WildcardVersion "Dependency"%string "0"%string].
Proof. vm_compute. reflexivity. Qed.
(** A comment line naming the patterns satisfies the .gitignore check. *)
Example comment_line_gitignore : missingPatterns "# .env *.key *.pem private secret"%string = [].
Proof. vm_compute. reflexivity. Qed.
(** An unrelated .gitignore misses every pattern. *)
Example unrelated_gitignore : missingPatterns "node_modules"%string = sensitivePatterns.
Proof. vm_compute. reflexivity. Qed.
Example nat_to_string_sample : nat_to_string 1234 = "1234"%string.
Proof. vm_compute. reflexivity. Qed.

(** * The contract security checker *)

Lemma split_nl_nonempty (s : string) : split_nl s <> [].
Proof.
  destruct s as [|c s]; simpl; [discriminate|].
  destruct (Ascii.eqb c newline); [discriminate|]. destruct (split_nl s); discriminate.
Qed.

Lemma lines_len_split (s : string) : lines_len (split_nl s) = String.length s + 1.
Proof.
  induction s as [|c s IH]; simpl; [reflexivity|].
  destruct (Ascii.eqb c newline); unfold lines_len in *; simpl in *; [lia|].
  destruct (split_nl s) as [|h t]; simpl in *; lia.
Qed.

Lemma substring_all (s : string) (n : nat) : String.length s <= n -> substring 0 n s = s.
Proof.
  revert n; induction s as [|c s IH]; intros [|n] H; simpl in *; try reflexivity; try lia.
  rewrite IH by lia. reflexivity.
Qed.

Lemma line_loop_zero_or_found (content m : string) (ls : list string) :
  forall i cc,
  line_loop content m ls i cc = 0 \/
  exists j, j < List.length ls /\ line_loop content m ls i cc = i + S j /\
    includes (substring 0 (cc + lines_len (firstn (S j) ls)) content) m = true /\
    forall j', j' < j -> includes (substring 0 (cc + lines_len (firstn (S j') ls)) content) m = false.
Proof.
  induction ls as [|l rest IH]; intros i cc; simpl; [left; reflexivity|].
  destruct (includes (substring 0 (cc + (String.length l + 1)) content) m) eqn:E.
  - right. exists 0. split; [lia|]. split; [lia|]. split.
    + unfold lines_len. simpl. rewrite Nat.add_0_r. exact E.
    + intros j' Hj'. lia.
  - destruct (IH (S i) (cc + (String.length l + 1))) as [H|(j & Hj & Hr & Hf & Hmin)];
      [left; exact H|].
    right. exists (S j). split; [lia|]. split; [lia|]. split.
    + unfold lines_len in *. simpl. rewrite Nat.add_assoc. exact Hf.
    + intros [|j'] Hj'.
      * unfold lines_len. simpl. rewrite Nat.add_0_r. exact E.
      * unfold lines_len in *. simpl. rewrite Nat.add_assoc. apply Hmin. lia.
Qed.

Lemma line_loop_nonzero (content m : string) (ls : list string) :
  forall i cc, ls <> [] ->
  includes (substring 0 (cc + lines_len ls) content) m = true ->
  line_loop content m ls i cc <> 0.
Proof.
  induction ls as [|l rest IH]; intros i cc Hne H; [congruence|]. simpl.
  destruct (includes (substring 0 (cc + (String.length l + 1)) content) m) eqn:E; [discriminate|].
  destruct rest as [|l' rest'].
  - unfold lines_len in H. simpl in H. rewrite Nat.add_0_r in H. congruence.
  - apply IH; [discriminate|]. unfold lines_len in *. simpl in *.
    rewrite <- Nat.add_assoc. exact H.
Qed.

Lemma includes_empty_nonempty (m : string) : m <> EmptyString -> includes EmptyString m = false.
Proof. destruct m; [congruence|reflexivity]. Qed.

(** The line reported for a non-empty match that occurs in the contract is a
    real line number (between 1 and the number of lines), and it is the first
    line by the end of which the matched text has appeared: every finding
    with the same text, wherever it matched, gets the line of its first
    occurrence. *)
Theorem findLineNum_first_line (content m : string)
    (Hin : includes content m = true) (Hne : m <> EmptyString) :
  1 <= findLineNum content m <= List.length (split_nl content) /\
  includes (substring 0 (line_end content (findLineNum content m)) content) m = true /\
  includes (substring 0 (line_end content (findLineNum content m - 1)) content) m = false.
Proof.
  unfold findLineNum, line_end.
  assert (Hnz : line_loop content m (split_nl content) 0 0 <> 0).
  { apply line_loop_nonzero; [apply split_nl_nonempty|].
    simpl. rewrite lines_len_split, substring_all by lia. exact Hin. }
  destruct (line_loop_zero_or_found content m (split_nl content) 0 0)
    as [H|(j & Hj & Hr & Hf & Hmin)]; [contradiction|].
  rewrite Hr. simpl in Hf. split; [lia|]. split; [exact Hf|].
  replace (S j - 1) with j by lia.
  destruct j as [|j].
  - simpl. unfold lines_len. simpl.
    destruct content; apply includes_empty_nonempty; exact Hne.
  - apply (Hmin j). lia.
Qed.

Lemma severity_count_app (s : Severity) (l1 l2 : list Finding) :
  severity_count s (l1 ++ l2) = severity_count s l1 + severity_count s l2.
Proof. unfold severity_count. rewrite filter_app, length_app. reflexivity. Qed.

Lemma severity_count_map (s : Severity) (c : SecurityCheck) (content : string) (ms : list string) :
  severity_count s (map (fun m => mkFinding (checkName c) (severity c) (message c)
                                   (findLineNum content m) m) ms)
  = if severity_eqb (severity c) s then List.length ms else 0.
Proof.
  unfold severity_count. induction ms as [|m ms IH]; simpl;
    destruct (severity_eqb (severity c) s); simpl in *; auto.
Qed.

Lemma analyze_fails (content : string) (matchOf : SecurityCheck -> list string) :
  fst (analyzeContract content matchOf) = false <->
  matchOf SELFDESTRUCT <> [] \/ matchOf DELEGATECALL <> [] \/ matchOf TX_ORIGIN <> [].
Proof.
  unfold analyzeContract. cbv zeta.
  set (F := fun c => map (fun m => mkFinding (checkName c) (severity c) (message c)
                                     (findLineNum content m) m) (matchOf c)).
  assert (Hc : severity_count CRITICAL (flat_map F CHECKS) = List.length (matchOf SELFDESTRUCT)).
  { unfold CHECKS. simpl flat_map. rewrite app_nil_r, !severity_count_app.
    unfold F. rewrite !severity_count_map. simpl. lia. }
  assert (Hh : severity_count HIGH (flat_map F CHECKS)
               = List.length (matchOf DELEGATECALL) + List.length (matchOf TX_ORIGIN)).
  { unfold CHECKS. simpl flat_map. rewrite app_nil_r, !severity_count_app.
    unfold F. rewrite !severity_count_map. simpl. lia. }
  destruct (flat_map F CHECKS) as [|f fs] eqn:E.
  - unfold severity_count in Hc, Hh. simpl in Hc, Hh. split; [discriminate|].
    intros [H|[H|H]]; exfalso; apply H; apply length_zero_iff_nil; lia.
  - rewrite Hc, Hh. simpl fst.
    rewrite negb_false_iff, orb_true_iff, !Nat.ltb_lt.
    rewrite <- !length_zero_iff_nil. lia.
Qed.

Lemma forallb_false_exists {A : Type} (p : A -> bool) (l : list A) :
  forallb p l = false -> exists x, In x l /\ p x = false.
Proof.
  induction l as [|x l IH]; simpl; [discriminate|].
  destruct (p x) eqn:E; simpl; intro H.
  - destruct (IH H) as (y & Hy & Hp). exists y. auto.
  - exists x. auto.
Qed.

(** [analyzeContract] fails a contract exactly when one of the CRITICAL or
    HIGH checks (selfdestruct, delegatecall, tx.origin) matched; MEDIUM, LOW
    and INFO findings only give warnings. *)
Theorem analyze_contract_verdict (content : string) (matchOf : SecurityCheck -> list string) :
  fst (analyzeContract content matchOf) = false <->
  matchOf SELFDESTRUCT <> [] \/ matchOf DELEGATECALL <> [] \/ matchOf TX_ORIGIN <> [].
Proof. exact (analyze_fails content matchOf). Qed.

(** The security checker exits with status 1 exactly when the contracts
    directory is missing or some [.sol] file in it has a selfdestruct,
    delegatecall or tx.origin match; files with other names are not read. *)
Theorem security_main_exit (exists_dir : bool) (dir : list (string * string))
    (matcher : string -> SecurityCheck -> list string) :
  security_main exists_dir dir matcher = 1 <->
  exists_dir = false \/
  exists name content, In (name, content) dir /\ ends_with ".sol" name = true /\
    (matcher content SELFDESTRUCT <> [] \/ matcher content DELEGATECALL <> [] \/
     matcher content TX_ORIGIN <> []).
Proof.
  unfold security_main. destruct exists_dir; simpl; [|split; auto].
  assert (Hsol : forall name content, In (name, content) dir /\ ends_with ".sol" name = true <->
                   In (name, content) (filter (fun f => ends_with ".sol" (fst f)) dir))
    by (intros; rewrite filter_In; reflexivity).
  destruct (filter (fun f => ends_with ".sol" (fst f)) dir) as [|f fs] eqn:E.
  - split; [discriminate|]. intros [H|(name & content & Hin & Hs & _)]; [discriminate|].
    exfalso. apply (proj1 (Hsol name content) (conj Hin Hs)).
  - destruct (forallb _ (f :: fs)) eqn:Hall; split; intro H.
    + discriminate.
    + exfalso. destruct H as [H|(name & content & Hin & Hs & Hm)]; [discriminate|].
      pose proof (proj1 (Hsol name content) (conj Hin Hs)) as Hf.
      rewrite forallb_forall in Hall. specialize (Hall _ Hf). simpl in Hall.
      apply (proj2 (analyze_fails content (matcher content))) in Hm. congruence.
    + right. destruct (forallb_false_exists _ _ Hall) as ([name content] & Hin & Hn).
      exists name, content. apply Hsol in Hin as [Hin Hs].
      split; [exact Hin|]. split; [exact Hs|].
      apply (proj1 (analyze_fails content (matcher content))). exact Hn.
    + reflexivity.
Qed.

Lemma findLineNum_first_line_witness :
  includes sample_contract "now" = true /\ "now"%string <> EmptyString /\
  findLineNum sample_contract "now" = 2 /\
  1 <= findLineNum sample_contract "now" <= List.length (split_nl sample_contract).
Proof.
  split; [reflexivity|]. split; [discriminate|]. split; [reflexivity|].
  exact (proj1 (findLineNum_first_line sample_contract "now" eq_refl ltac:(discriminate))).
Defined.
